(** * Checkpoint rotation of [Tutorials/6_SavingAndLoadingModels.ipynb]

    The notebook saves training checkpoints under time-stamped names, lists
    them with [sorted(glob.glob('check_*.pth'))], deletes all but the last
    three names of that list and restores the last one.  This file embeds
    those cells together with the pieces of the Python runtime they lean on
    (slicing, negative indexing, [str] ordering, [fnmatch], [os.remove]) and
    states the retention properties over that embedding.

    The working directory is a finite map from file names to file contents.
    Where a statement says that the deleting cell ends normally, the
    directory also has sub-directories ([Disk]), which [glob] lists like
    files and [os.remove] refuses to delete. *)

From Stdlib Require Import ZArith Ascii String List Sorted Permutation Lia.
From Stdlib Require Import DecimalString DecimalNat.
From stdpp Require Import gmap strings list sorting.

Set Warnings "-clear-no-such-hyp".

(** * The Python runtime, as far as the notebook uses it *)

Module Py.

(** Exceptions the modelled calls can raise. *)
Inductive exn : Type :=
  | IndexError
  | FileNotFoundError
  | IsADirectoryError
  | ValueError
  | UnpicklingError.

(** A call either returns a value or raises. *)
Inductive outcome (A : Type) : Type :=
  | Return (a : A)
  | Raise (e : exn).
Arguments Return {A} a.
Arguments Raise {A} e.

Definition returns {A} (o : outcome A) : Prop := ∃ a, o = Return a.
Definition raises {A} (o : outcome A) : Prop := ∃ e, o = Raise e.

(** ** [str] comparison: code point by code point *)

Definition str_le (s1 s2 : string) : Prop := String.leb s1 s2 = true.
Definition str_lt (s1 s2 : string) : Prop := String.ltb s1 s2 = true.

#[global] Instance str_le_dec s1 s2 : Decision (str_le s1 s2).
Proof. unfold str_le. apply _. Defined.

#[global] Instance str_lt_dec s1 s2 : Decision (str_lt s1 s2).
Proof. unfold str_lt. apply _. Defined.

(** ** [sorted(xs)] on a list of [str] *)

Definition sorted (xs : list string) : list string := merge_sort str_le xs.

(** ** Slicing [xs[:stop]]

    [slice.indices] for a missing start and step: a negative [stop] counts
    from the end, and the bound is then clamped to [0 .. len(xs)]. *)

Definition slice_stop (len : nat) (stop : Z) : nat :=
  if (stop <? 0)%Z
  then Z.to_nat (Z.max 0 (stop + Z.of_nat len))
  else Z.to_nat (Z.min stop (Z.of_nat len)).

Definition slice_to {A} (xs : list A) (stop : Z) : list A :=
  take (slice_stop (length xs) stop) xs.

(** ** Indexing [xs[i]]: negative indices count from the end, an index out of
    range raises [IndexError]. *)

Definition getitem {A} (xs : list A) (i : Z) : outcome A :=
  let j := if (i <? 0)%Z then (i + Z.of_nat (length xs))%Z else i in
  if (j <? 0)%Z then Raise IndexError
  else match xs !! Z.to_nat j with
       | Some x => Return x
       | None => Raise IndexError
       end.

End Py.

Export Py.

(** ** [time.struct_time] and [time.strftime] *)

Module Time.

(** The fields of [time.localtime()] that the format string reads. *)
Record struct_time : Type := {
  tm_year : nat;
  tm_mon  : nat;   (* 1 .. 12 *)
  tm_mday : nat;   (* 1 .. 31 *)
  tm_hour : nat;   (* 0 .. 23 *)
  tm_min  : nat;   (* 0 .. 59 *)
  tm_sec  : nat    (* 0 .. 61 *)
}.

(** Wall-clock order of two local times of one time zone: year first, then
    month, day, hour, minute, second. *)
Fixpoint lex_compare (a b : list nat) : comparison :=
  match a, b with
  | [], [] => Eq
  | [], _ :: _ => Lt
  | _ :: _, [] => Gt
  | x :: a', y :: b' =>
      match Nat.compare x y with
      | Eq => lex_compare a' b'
      | c => c
      end
  end.

Definition tm_fields (t : struct_time) : list nat :=
  [tm_year t; tm_mon t; tm_mday t; tm_hour t; tm_min t; tm_sec t].

Definition earlier (t1 t2 : struct_time) : Prop :=
  lex_compare (tm_fields t1) (tm_fields t2) = Lt.

#[global] Instance earlier_dec t1 t2 : Decision (earlier t1 t2).
Proof. unfold earlier. apply _. Defined.

(** A calendar date and time of day. *)
Definition valid (t : struct_time) : Prop :=
  1 ≤ tm_mon t ≤ 12 ∧ 1 ≤ tm_mday t ≤ 31 ∧
  tm_hour t ≤ 23 ∧ tm_min t ≤ 59 ∧ tm_sec t ≤ 61.

(** Decimal digits of a number, and the two-digit zero-padded form of [%d],
    [%H], [%M] and [%S]. *)
Definition decimal (n : nat) : string :=
  NilEmpty.string_of_uint (Nat.to_uint n).

Definition pad2 (n : nat) : string :=
  if n <? 10 then String "0" (decimal n) else decimal n.

(** [%b]: the abbreviated month name (C locale). *)
Definition month_abbr : list string :=
  ["Jan"; "Feb"; "Mar"; "Apr"; "May"; "Jun";
   "Jul"; "Aug"; "Sep"; "Oct"; "Nov"; "Dec"].

Definition abbreviated_month (mon : nat) : string :=
  default "?" (month_abbr !! (mon - 1)).

(** The conversion of one directive [%c]. *)
Definition directive (c : ascii) (t : struct_time) : string :=
  if Ascii.eqb c "Y" then decimal (tm_year t)
  else if Ascii.eqb c "b" then abbreviated_month (tm_mon t)
  else if Ascii.eqb c "d" then pad2 (tm_mday t)
  else if Ascii.eqb c "H" then pad2 (tm_hour t)
  else if Ascii.eqb c "M" then pad2 (tm_min t)
  else if Ascii.eqb c "S" then pad2 (tm_sec t)
  else String "%" (String c "").

(** [time.strftime(fmt, t)]: directives are replaced, every other character
    is copied. *)
Fixpoint strftime (fmt : string) (t : struct_time) : string :=
  match fmt with
  | EmptyString => EmptyString
  | String c EmptyString => String c EmptyString
  | String c (String d rest as tl) =>
      if Ascii.eqb c "%"
      then directive d t +:+ strftime rest t
      else String c (strftime tl t)
  end.

End Time.

(** ** [fnmatch] and [glob.glob] *)

Module Glob.

(** A shell pattern: [*] stands for any run of characters, [?] for any one
    character, every other character for itself.  (Bracket classes are not
    modelled; the notebook's pattern has none.) *)
Inductive token : Type :=
  | Star
  | AnyChar
  | Lit (c : ascii).

Fixpoint translate (pat : string) : list token :=
  match pat with
  | EmptyString => []
  | String c pat' =>
      (if Ascii.eqb c "*" then Star
       else if Ascii.eqb c "?" then AnyChar
       else Lit c) :: translate pat'
  end.

Fixpoint match_tokens (ts : list token) (s : string) : bool :=
  match ts with
  | [] => match s with EmptyString => true | _ => false end
  | Lit c :: ts' =>
      match s with
      | String c' s' => Ascii.eqb c c' && match_tokens ts' s'
      | EmptyString => false
      end
  | AnyChar :: ts' =>
      match s with
      | String _ s' => match_tokens ts' s'
      | EmptyString => false
      end
  | Star :: ts' =>
      (fix skip (s : string) : bool :=
         match_tokens ts' s ||
         match s with
         | String _ s' => skip s'
         | EmptyString => false
         end) s
  end.

Definition fnmatch (name pat : string) : bool :=
  match_tokens (translate pat) name.

(** Names that start with a dot are hidden from patterns that do not. *)
Definition ishidden (s : string) : bool :=
  match s with
  | String c _ => Ascii.eqb c "."
  | EmptyString => false
  end.

Definition selected (pat name : string) : bool :=
  fnmatch name pat && (ishidden pat || negb (ishidden name)).

(** [glob1]: the entries of one directory that match. *)
Definition glob1 (pat : string) (names : list string) : list string :=
  filter (λ name, selected pat name = true) names.

(** The entries of a directory, in the order the file system hands them out
    (here: the order of the map's enumeration; nothing below depends on it). *)
Definition scandir {V} (dir : gmap string V) : list string :=
  (map_to_list dir).*1.

(** [glob.glob(pat)] for a pattern without directory part, run in a working
    directory that exists ([Some dir]) or has gone ([None]): the [OSError]
    of the failed scan is swallowed and no name is yielded. *)
Definition glob {V} (pat : string) (cwd : option (gmap string V)) : list string :=
  match cwd with
  | Some dir => glob1 pat (scandir dir)
  | None => []
  end.

End Glob.

(** ** [os.remove]

    On a directory of regular files: an entry that is there is deleted, a
    name that is not raises.  Sub-directories are in [Disk]. *)

Module Os.

Definition remove {V} (path : string) (dir : gmap string V)
  : outcome (gmap string V) :=
  match dir !! path with
  | Some _ => Return (delete path dir)
  | None => Raise FileNotFoundError
  end.

End Os.

(** ** [torch.save] and [torch.load]

    The serialisation format belongs to the framework: it enters as a pair of
    functions, pickling an object to file contents and back. *)

Module Torch.
Section Torch.
Context {obj bytes : Type}.
Variable dumps : obj → bytes.
Variable loads : bytes → option obj.

Definition save (o : obj) (path : string) (dir : gmap string bytes)
  : gmap string bytes :=
  <[path := dumps o]> dir.

Definition load (path : string) (dir : gmap string bytes) : outcome obj :=
  match dir !! path with
  | None => Raise FileNotFoundError
  | Some b =>
      match loads b with
      | Some o => Return o
      | None => Raise UnpicklingError
      end
  end.

End Torch.
End Torch.

(** * The notebook's cells *)

Module Notebook.
Import Time Glob.

(** [def timestamp()], with the clock reading [t = time.localtime()] as its
    argument. *)
Definition timestamp (t : struct_time) : string :=
  strftime "%Y_%b_%d_%H_%M_%S" t.

(** The file name [f"check_{timestamp()}.pth"] of a checkpoint. *)
Definition checkpoint_name (t : struct_time) : string :=
  "check_" +:+ timestamp t +:+ ".pth".

(** [checkpoints = sorted(glob.glob('check_*.pth'))] *)
Definition pattern : string := "check_*.pth".

Definition list_checkpoints {V} (cwd : option (gmap string V)) : list string :=
  sorted (glob pattern cwd).

(** What a run of the deleting loop leaves behind: the directory, the names
    it removed, in order, and the exception that ended it, if one did. *)
Record pruned (V : Type) : Type := {
  storage : gmap string V;
  removed : list string;
  raised : option exn
}.
Arguments storage {V} _.
Arguments removed {V} _.
Arguments raised {V} _.

(** [for file in files: os.remove(file)] *)
Fixpoint remove_each {V} (files : list string) (dir : gmap string V) : pruned V :=
  match files with
  | [] => {| storage := dir; removed := []; raised := None |}
  | file :: rest =>
      match Os.remove file dir with
      | Raise e => {| storage := dir; removed := []; raised := Some e |}
      | Return dir' =>
          let r := remove_each rest dir' in
          {| storage := storage r;
             removed := file :: removed r;
             raised := raised r |}
      end
  end.

(** [for file in checkpoints[:-3]: os.remove(file)], with the literal [3] of
    the source as the parameter [keep_count]: the loop runs over
    [checkpoints[:-keep_count]]. *)
Definition prune {V} (checkpoints : list string) (keep_count : Z)
    (dir : gmap string V) : pruned V :=
  remove_each (slice_to checkpoints (- keep_count)) dir.

(** The whole cell: list the directory, then delete. *)
Definition clean_up_keeping {V} (keep_count : Z) (dir : gmap string V) : pruned V :=
  prune (list_checkpoints (Some dir)) keep_count dir.

(** The cell as the notebook has it, twice: all but the last three. *)
Definition clean_up {V} (dir : gmap string V) : pruned V :=
  clean_up_keeping 3 dir.

(** [checkpoints[-1]] *)
Definition latest (checkpoints : list string) : outcome string :=
  getitem checkpoints (-1).

(** The dictionary a checkpoint file holds, and the training state it is
    taken from and restored to.  [sd] is the type of a [state_dict]. *)
Record checkpoint (sd : Type) : Type := {
  epoch : Z;
  model_state_dict : sd;
  optimizer_state_dict : sd
}.
Arguments epoch {sd} _.
Arguments model_state_dict {sd} _.
Arguments optimizer_state_dict {sd} _.

Record trainer (sd : Type) : Type := {
  network : sd;
  optimizer : sd
}.
Arguments network {sd} _.
Arguments optimizer {sd} _.

Section Checkpointing.
Context {sd bytes : Type}.
Variable dumps : checkpoint sd → bytes.
Variable loads : bytes → option (checkpoint sd).

(** [torch.save({'epoch': epoch, ...}, f"check_{timestamp()}.pth")] *)
Definition save_checkpoint (ep : Z) (tr : trainer sd) (t : struct_time)
    (dir : gmap string bytes) : gmap string bytes :=
  Torch.save dumps
    {| epoch := ep;
       model_state_dict := network tr;
       optimizer_state_dict := optimizer tr |}
    (checkpoint_name t) dir.

(** [checkpoint = torch.load(path)] followed by the two [load_state_dict]
    calls and [last_epoch = checkpoint['epoch']]. *)
Definition restore_from (path : string) (dir : gmap string bytes)
  : outcome (trainer sd * Z) :=
  match Torch.load loads path dir with
  | Raise e => Raise e
  | Return ckpt =>
      Return ({| network := model_state_dict ckpt;
                 optimizer := optimizer_state_dict ckpt |}, epoch ckpt)
  end.

(** The restoring cell: [torch.load(checkpoints[-1])] and what follows. *)
Definition restore (checkpoints : list string) (dir : gmap string bytes)
  : outcome (trainer sd * Z) :=
  match latest checkpoints with
  | Raise e => Raise e
  | Return path => restore_from path dir
  end.

End Checkpointing.
End Notebook.

Import Time Glob Notebook.

(** A pickle format small enough to run: a checkpoint whose state
    dictionaries are single numbers, written as the list of its three
    fields.  It stands in for the framework's format where a statement is
    tried on concrete data. *)
Definition toy_dumps (c : checkpoint Z) : list Z :=
  [epoch c; model_state_dict c; optimizer_state_dict c].

Definition toy_loads (b : list Z) : option (checkpoint Z) :=
  match b with
  | [e; m; o] =>
      Some {| epoch := e; model_state_dict := m; optimizer_state_dict := o |}
  | _ => None
  end.

(** * The retention properties, as statements about the cells *)

(** A name of the shape the pattern selects. *)
Definition checkpoint_like (name : string) : Prop :=
  ∃ mid, name = "check_" +:+ mid +:+ ".pth".


(** A name that is no longer there is passed over: the loop ends normally. *)
Definition tolerates_missing {V} (checkpoints : list string) (keep_count : Z)
    (dir : gmap string V) : Prop :=
  raised (prune checkpoints keep_count dir) = None.

(** Names sort the way their checkpoints were written. *)
Definition names_follow_time (t1 t2 : struct_time) : Prop :=
  earlier t1 t2 → str_lt (checkpoint_name t1) (checkpoint_name t2).


(** * The training cells

    The two loops that write the checkpoints.  The passes over the data are
    the framework's work and enter as one function, [train_epoch]: what an
    epoch does to the network and the optimizer.  [clock] is the reading of
    [time.localtime()] at the save of an epoch. *)

Module Training.

(** [range(start, stop)], which [trange] wraps. *)
Definition range (start stop : Z) : list Z := seqZ start (stop - start).

(** [epoch % 200 == 0 or epoch == EPOCHS] *)
Definition save_due (EPOCHS epoch : Z) : bool :=
  (epoch mod 200 =? 0)%Z || (epoch =? EPOCHS)%Z.

Section Loop.
Context {sd bytes : Type}.
Variable dumps : checkpoint sd → bytes.
Variable loads : bytes → option (checkpoint sd).
Variable train_epoch : Z → trainer sd → trainer sd.
Variable EPOCHS : Z.
Variable clock : Z → struct_time.

(** The body of [for epoch in ...]: train, then save when a save is due. *)
Definition epoch_body (st : trainer sd * gmap string bytes) (epoch : Z)
  : trainer sd * gmap string bytes :=
  let tr := train_epoch epoch st.1 in
  (tr, if save_due EPOCHS epoch
       then save_checkpoint dumps epoch tr (clock epoch) st.2
       else st.2).

Definition training_loop (epochs : list Z) (st : trainer sd * gmap string bytes)
  : trainer sd * gmap string bytes :=
  fold_left epoch_body epochs st.

(** [for epoch in trange(1, EPOCHS+1)] *)
Definition first_run (st : trainer sd * gmap string bytes)
  : trainer sd * gmap string bytes :=
  training_loop (range 1 (EPOCHS + 1)) st.

(** [for epoch in trange(last_epoch, last_epoch+EPOCHS)] *)
Definition resumed_run (last_epoch : Z) (st : trainer sd * gmap string bytes)
  : trainer sd * gmap string bytes :=
  training_loop (range last_epoch (last_epoch + EPOCHS)) st.

(** What the epochs alone do to the network and the optimizer. *)
Definition trained (epochs : list Z) (tr : trainer sd) : trainer sd :=
  fold_left (λ tr epoch, train_epoch epoch tr) epochs tr.

(** The cells from the first loop to the restoring one, run in order: train
    and save, list, delete all but three, restore from the last name of the
    list made before the deletion. *)
Definition notebook (st : trainer sd * gmap string bytes)
  : outcome (trainer sd * Z) :=
  let st1 := first_run st in
  let checkpoints := list_checkpoints (Some st1.2) in
  let r := prune checkpoints 3 st1.2 in
  match raised r with
  | Some e => Raise e
  | None => restore loads checkpoints (storage r)
  end.

End Loop.
End Training.

Import Training.

(** * The deleting cell in a directory with sub-directories

    [glob] lists a sub-directory whose name matches like it lists a file;
    [os.remove] deletes a file and raises on a directory.  The cell is the
    one of the notebook, with its literal [3]. *)

Module Disk.

Inductive entry (V : Type) : Type :=
  | File (contents : V)
  | Directory.
Arguments File {V} contents.
Arguments Directory {V}.

Definition is_file {V} (d : gmap string (entry V)) (path : string) : Prop :=
  match d !! path with
  | Some (File _) => True
  | _ => False
  end.

#[global] Instance is_file_dec {V} (d : gmap string (entry V)) path :
  Decision (is_file d path).
Proof. unfold is_file. destruct (d !! path) as [[?|]|]; apply _. Defined.

(** [os.remove(path)] *)
Definition remove {V} (path : string) (d : gmap string (entry V))
  : outcome (gmap string (entry V)) :=
  match d !! path with
  | None => Raise FileNotFoundError
  | Some Directory => Raise IsADirectoryError
  | Some (File _) => Return (delete path d)
  end.

(** [for file in files: os.remove(file)] *)
Fixpoint remove_each {V} (files : list string) (d : gmap string (entry V))
  : pruned (entry V) :=
  match files with
  | [] => {| storage := d; removed := []; raised := None |}
  | file :: rest =>
      match remove file d with
      | Raise e => {| storage := d; removed := []; raised := Some e |}
      | Return d' =>
          let r := remove_each rest d' in
          {| storage := storage r;
             removed := file :: removed r;
             raised := raised r |}
      end
  end.

(** [checkpoints = sorted(glob.glob('check_*.pth'))] and
    [for file in checkpoints[:-3]: os.remove(file)] *)
Definition clean_up {V} (d : gmap string (entry V)) : pruned (entry V) :=
  let checkpoints := list_checkpoints (Some d) in
  remove_each (slice_to checkpoints (-3)) d.

End Disk.

(** * Trying the definitions *)

(** Closed decidable statements are settled by evaluation. *)
Ltac by_computation := apply (bool_decide_unpack _); vm_compute; exact I.

Example slice_to_minus3 :
  slice_to ["a"; "b"; "c"; "d"; "e"] (-3) = ["a"; "b"].
Proof. reflexivity. Qed.

Example sorted_ex : sorted ["b"; "c"; "a"] = ["a"; "b"; "c"].
Proof. vm_compute. reflexivity. Qed.

Example timestamp_ex :
  timestamp {| tm_year := 2021; tm_mon := 9; tm_mday := 19;
               tm_hour := 17; tm_min := 24; tm_sec := 39 |}
  = "2021_Sep_19_17_24_39".
Proof. vm_compute. reflexivity. Qed.

Example fnmatch_ex :
  fnmatch "check_2021_Sep_19_17_24_39.pth" pattern = true
  ∧ fnmatch "model.pth" pattern = false
  ∧ fnmatch "check_.pth" pattern = true
  ∧ fnmatch "check_pth" pattern = false.
Proof. vm_compute. auto. Qed.

Example clean_up_ex :
  let dir : gmap string nat :=
    list_to_map [("check_0004.pth", 4); ("check_0001.pth", 1); ("model.pth", 0);
                 ("check_0005.pth", 5); ("check_0002.pth", 2); ("check_0003.pth", 3)] in
  removed (clean_up dir) = ["check_0001.pth"; "check_0002.pth"]
  ∧ raised (clean_up dir) = None
  ∧ list_checkpoints (Some (storage (clean_up dir)))
    = ["check_0003.pth"; "check_0004.pth"; "check_0005.pth"].
Proof. vm_compute. auto. Qed.

(** * The order on names *)

Lemma string_leb_trans s1 s2 s3 :
  String.leb s1 s2 = true → String.leb s2 s3 = true → String.leb s1 s3 = true.
Proof.
  unfold String.leb. revert s2 s3.
  induction s1 as [|a1 s1 IH]; intros [|a2 s2] [|a3 s3]; simpl; try done.
  unfold Ascii.compare.
  destruct (N.compare_spec (N_of_ascii a1) (N_of_ascii a2)) as [E12|L12|G12];
    destruct (N.compare_spec (N_of_ascii a2) (N_of_ascii a3)) as [E23|L23|G23];
    destruct (N.compare_spec (N_of_ascii a1) (N_of_ascii a3)) as [E13|L13|G13];
    try done; try lia.
  apply IH.
Qed.

#[global] Instance str_le_trans : Transitive str_le.
Proof. intros s1 s2 s3. apply string_leb_trans. Qed.

#[global] Instance str_le_total : Total str_le.
Proof. intros s1 s2. apply String.leb_total. Qed.

#[global] Instance str_le_antisym : AntiSymm (=) str_le.
Proof. intros s1 s2. apply String.leb_antisym. Qed.

#[global] Instance str_le_refl : Reflexive str_le.
Proof. intros s. destruct (String.leb_total s s); done. Qed.

Lemma str_lt_le s1 s2 : str_lt s1 s2 → str_le s1 s2.
Proof.
  unfold str_lt, str_le, String.ltb, String.leb.
  by destruct (String.compare s1 s2).
Qed.

Lemma str_lt_ne s1 s2 : str_lt s1 s2 → s1 ≠ s2.
Proof.
  unfold str_lt, String.ltb. intros H ->.
  assert (E : String.compare s2 s2 = Eq).
  { pose proof (String.compare_antisym s2 s2) as A.
    destruct (String.compare s2 s2); simpl in A; congruence. }
  by rewrite E in H.
Qed.

Lemma str_le_not_lt s1 s2 : str_le s1 s2 → ¬ str_lt s2 s1.
Proof.
  unfold str_lt, str_le, String.ltb, String.leb.
  rewrite (String.compare_antisym s1 s2).
  destruct (String.compare s2 s1); simpl; congruence.
Qed.

(** * [sorted] *)

Lemma sorted_Sorted xs : Sorted str_le (sorted xs).
Proof. apply (Sorted_merge_sort str_le). Qed.

Lemma sorted_Permutation xs : sorted xs ≡ₚ xs.
Proof. apply (merge_sort_Permutation str_le). Qed.

Lemma sorted_elem_of x xs : x ∈ sorted xs ↔ x ∈ xs.
Proof. by rewrite sorted_Permutation. Qed.

Lemma sorted_length xs : length (sorted xs) = length xs.
Proof. by rewrite sorted_Permutation. Qed.

Lemma sorted_NoDup xs : NoDup xs → NoDup (sorted xs).
Proof. by rewrite sorted_Permutation. Qed.

(** The result depends on the names only, not on the order they come in. *)
Lemma sorted_perm_eq xs ys : xs ≡ₚ ys → sorted xs = sorted ys.
Proof.
  intros P. apply (Sorted_unique str_le); try apply sorted_Sorted.
  by rewrite !sorted_Permutation.
Qed.

(** An ascending list is left as it is. *)
Lemma sorted_id xs : Sorted str_le xs → sorted xs = xs.
Proof.
  intros S. apply (Sorted_unique str_le); auto using sorted_Sorted, sorted_Permutation.
Qed.

(** In an ascending list every name of a front part is below every name of
    the rest. *)
Lemma Sorted_take_drop_le xs n x y :
  Sorted str_le xs → x ∈ take n xs → y ∈ drop n xs → str_le x y.
Proof.
  intros S Hx Hy. apply (Sorted_StronglySorted str_le) in S.
  rewrite <- (take_drop n xs) in S.
  eapply (StronglySorted_app_1_elem_of str_le); eauto.
Qed.

Lemma Sorted_take xs n : Sorted str_le xs → Sorted str_le (take n xs).
Proof.
  intros S. apply (Sorted_StronglySorted str_le) in S.
  rewrite <- (take_drop n xs) in S.
  apply StronglySorted_app_1_l in S. by apply StronglySorted_Sorted.
Qed.

Lemma Sorted_drop xs n : Sorted str_le xs → Sorted str_le (drop n xs).
Proof.
  intros S. apply (Sorted_StronglySorted str_le) in S.
  rewrite <- (take_drop n xs) in S.
  apply StronglySorted_app_1_r in S. by apply StronglySorted_Sorted.
Qed.

(** * Slices *)

Lemma slice_to_prefix {A} (xs : list A) stop : slice_to xs stop `prefix_of` xs.
Proof. apply prefix_take. Qed.

Lemma slice_stop_keep n k :
  (1 ≤ k)%Z → slice_stop n (- k) = n - Z.to_nat k.
Proof.
  intros Hk. unfold slice_stop.
  destruct (Z.ltb_spec (- k) 0); lia.
Qed.

Lemma slice_stop_zero n : slice_stop n (- 0) = 0.
Proof. unfold slice_stop. simpl. lia. Qed.

Lemma slice_stop_negative n k :
  (k < 0)%Z → slice_stop n (- k) = Nat.min (Z.to_nat (- k)) n.
Proof.
  intros Hk. unfold slice_stop.
  destruct (Z.ltb_spec (- k) 0); lia.
Qed.

Lemma slice_to_keep {A} (xs : list A) k :
  (1 ≤ k)%Z → slice_to xs (- k) = take (length xs - Z.to_nat k) xs.
Proof. intros Hk. unfold slice_to. by rewrite slice_stop_keep. Qed.

Lemma slice_to_keep_length {A} (xs : list A) k :
  (1 ≤ k)%Z →
  Z.of_nat (length (slice_to xs (- k))) = Z.max 0 (Z.of_nat (length xs) - k).
Proof. intros Hk. rewrite slice_to_keep, length_take by done. lia. Qed.

(** * The deleting loop *)

Section RemoveEach.
Context {V : Type}.
Implicit Types (dir : gmap string V) (files : list string).

Lemma remove_each_removed_prefix files dir :
  removed (remove_each files dir) `prefix_of` files.
Proof.
  revert dir. induction files as [|file rest IH]; intros dir; simpl.
  - done.
  - unfold Os.remove. destruct (dir !! file); simpl.
    + apply prefix_cons, IH.
    + apply prefix_nil.
Qed.

(** A file is gone afterwards exactly when the loop removed it; every other
    entry of the directory is as before. *)
Lemma remove_each_lookup files dir x :
  storage (remove_each files dir) !! x
  = if decide (x ∈ removed (remove_each files dir)) then None else dir !! x.
Proof.
  revert dir. induction files as [|file rest IH]; intros dir; cbn [remove_each].
  - cbn [storage removed]. case_decide; [set_solver | done].
  - unfold Os.remove. destruct (dir !! file) eqn:E; cbn [storage removed].
    + rewrite IH. destruct (decide (x = file)) as [->|Hne].
      * rewrite lookup_delete_eq. repeat case_decide; try done; set_solver.
      * rewrite lookup_delete_ne by done. repeat case_decide; try done; set_solver.
    + case_decide; [set_solver | done].
Qed.

(** The only exception the loop can end with is [os.remove]'s. *)
Lemma remove_each_raised files dir e :
  raised (remove_each files dir) = Some e → e = FileNotFoundError.
Proof.
  revert dir. induction files as [|file rest IH]; intros dir; simpl.
  - done.
  - unfold Os.remove. destruct (dir !! file); simpl; [apply IH | congruence].
Qed.

(** Distinct names that all exist are all removed, in order, and the loop
    ends normally. *)
Lemma remove_each_all files dir :
  NoDup files → (∀ x, x ∈ files → is_Some (dir !! x)) →
  removed (remove_each files dir) = files ∧ raised (remove_each files dir) = None.
Proof.
  revert dir. induction files as [|file rest IH]; intros dir ND Hex; simpl.
  - done.
  - apply NoDup_cons in ND as [Hnin ND].
    unfold Os.remove. destruct (Hex file) as [v ->]; [set_solver|]. simpl.
    destruct (IH (delete file dir) ND) as [-> ->]; [|done].
    intros x Hx. rewrite lookup_delete_ne by set_solver. apply Hex. set_solver.
Qed.

(** The loop stops at the first name that is not (or no longer) there: the
    names before it are removed, the ones after it are not looked at. *)
Lemma remove_each_missing before file after dir :
  NoDup before → (∀ x, x ∈ before → is_Some (dir !! x)) →
  dir !! file = None ∨ file ∈ before →
  removed (remove_each (before ++ file :: after) dir) = before
  ∧ raised (remove_each (before ++ file :: after) dir) = Some FileNotFoundError.
Proof.
  revert dir. induction before as [|b before IH]; intros dir ND Hex Hfile; simpl.
  - unfold Os.remove. destruct Hfile as [->|Hin]; [done | set_solver].
  - apply NoDup_cons in ND as [Hnin ND].
    unfold Os.remove. destruct (Hex b) as [v ->]; [set_solver|]. simpl.
    destruct (IH (delete b dir) ND) as [-> ->]; [| |done].
    + intros x Hx. rewrite lookup_delete_ne by set_solver. apply Hex. set_solver.
    + destruct (decide (file = b)) as [->|Hne].
      * left. apply lookup_delete_eq.
      * destruct Hfile as [Hnone|Hin].
        -- left. by rewrite lookup_delete_ne.
        -- right. set_solver.
Qed.

End RemoveEach.

(** * Matching and listing *)

Lemma append_nil_l s : EmptyString +:+ s = s.
Proof. reflexivity. Qed.

Lemma append_cons c s1 s2 : String c s1 +:+ s2 = String c (s1 +:+ s2).
Proof. reflexivity. Qed.

Lemma match_star_unfold ts s :
  match_tokens (Star :: ts) s
  = match_tokens ts s ||
    match s with
    | String _ s' => match_tokens (Star :: ts) s'
    | EmptyString => false
    end.
Proof. by destruct s. Qed.

Lemma match_star ts s :
  match_tokens (Star :: ts) s = true
  ↔ ∃ a b, s = a +:+ b ∧ match_tokens ts b = true.
Proof.
  induction s as [|c s IH]; rewrite match_star_unfold.
  - rewrite orb_false_r. split.
    + intros H. by exists EmptyString, EmptyString.
    + intros ([|??] & b & E & H);
        rewrite ?append_nil_l, ?append_cons in E; [by subst | done].
  - rewrite orb_true_iff, IH. split.
    + intros [H | (a & b & -> & H)].
      * by exists EmptyString, (String c s).
      * by exists (String c a), b.
    + intros ([|c' a] & b & E & H); rewrite ?append_nil_l, ?append_cons in E.
      * left. by subst.
      * right. injection E as -> ->. by exists a, b.
Qed.

Lemma match_lit c ts s :
  match_tokens (Lit c :: ts) s = true
  ↔ ∃ s', s = String c s' ∧ match_tokens ts s' = true.
Proof.
  destruct s as [|c' s]; simpl.
  - split; [done | by intros (? & ? & ?)].
  - rewrite andb_true_iff, Ascii.eqb_eq. split.
    + intros [-> H]. by exists s.
    + intros (s' & E & H). injection E as -> ->. done.
Qed.

Lemma match_nil s : match_tokens [] s = true ↔ s = EmptyString.
Proof. by destruct s. Qed.

(** The notebook's pattern selects exactly the names that are ["check_"],
    anything, [".pth"]. *)
Lemma fnmatch_pattern name :
  fnmatch name pattern = true ↔ ∃ mid, name = "check_" +:+ mid +:+ ".pth".
Proof.
  unfold fnmatch, pattern. cbn [translate Ascii.eqb Bool.eqb].
  split.
  - intros H.
    repeat (apply match_lit in H as (? & -> & H)).
    apply match_star in H as (mid & b & -> & H).
    repeat (apply match_lit in H as (? & -> & H)).
    apply match_nil in H as ->. by exists mid.
  - intros (mid & ->). rewrite !append_cons, append_nil_l.
    repeat (apply match_lit; eexists; split; [reflexivity|]).
    apply match_star. exists mid, ".pth". split; [done|].
    by vm_compute.
Qed.

Lemma selected_pattern name :
  selected pattern name = true ↔ ∃ mid, name = "check_" +:+ mid +:+ ".pth".
Proof.
  unfold selected. rewrite andb_true_iff, fnmatch_pattern. split.
  - by intros [? _].
  - intros [mid ->]. split; [by exists mid | done].
Qed.

Section Listing.
Context {V : Type}.
Implicit Types (dir : gmap string V).

Lemma elem_of_scandir dir x : x ∈ scandir dir ↔ is_Some (dir !! x).
Proof.
  unfold scandir. rewrite list_elem_of_fmap. split.
  - intros ([k v] & -> & H). apply elem_of_map_to_list in H. by exists v.
  - intros [v H]. exists (x, v). split; [done | by apply elem_of_map_to_list].
Qed.

Lemma NoDup_scandir dir : NoDup (scandir dir).
Proof. apply NoDup_fst_map_to_list. Qed.

Lemma elem_of_glob pat dir x :
  x ∈ glob pat (Some dir) ↔ selected pat x = true ∧ is_Some (dir !! x).
Proof. unfold glob, glob1. by rewrite list_elem_of_filter, elem_of_scandir. Qed.

Lemma NoDup_glob pat (cwd : option (gmap string V)) : NoDup (glob pat cwd).
Proof.
  destruct cwd as [dir|]; simpl; [|constructor].
  apply NoDup_filter, NoDup_scandir.
Qed.

Lemma elem_of_list_checkpoints dir x :
  x ∈ list_checkpoints (Some dir)
  ↔ (∃ mid, x = "check_" +:+ mid +:+ ".pth") ∧ is_Some (dir !! x).
Proof.
  unfold list_checkpoints.
  by rewrite sorted_elem_of, elem_of_glob, selected_pattern.
Qed.

Lemma NoDup_list_checkpoints (cwd : option (gmap string V)) :
  NoDup (list_checkpoints cwd).
Proof. apply sorted_NoDup, NoDup_glob. Qed.

Lemma Sorted_list_checkpoints (cwd : option (gmap string V)) :
  Sorted str_le (list_checkpoints cwd).
Proof. apply sorted_Sorted. Qed.

End Listing.

(** * One run of the deleting loop *)

Section Prune.
Context {V : Type}.
Implicit Types (dir : gmap string V) (checkpoints : list string).

(** On distinct names that all exist the loop removes the whole slice. *)
Lemma prune_all checkpoints keep_count dir :
  NoDup checkpoints → (∀ x, x ∈ checkpoints → is_Some (dir !! x)) →
  removed (prune checkpoints keep_count dir) = slice_to checkpoints (- keep_count)
  ∧ raised (prune checkpoints keep_count dir) = None.
Proof.
  intros ND Hex. apply remove_each_all.
  - eapply sublist_NoDup; [done | apply sublist_take].
  - intros x Hx. apply Hex. by apply (subseteq_take _ _ x) in Hx.
Qed.

Lemma prune_lookup checkpoints keep_count dir x :
  storage (prune checkpoints keep_count dir) !! x
  = if decide (x ∈ removed (prune checkpoints keep_count dir))
    then None else dir !! x.
Proof. apply remove_each_lookup. Qed.

Lemma prune_nothing_removed checkpoints keep_count dir :
  removed (prune checkpoints keep_count dir) = [] →
  storage (prune checkpoints keep_count dir) = dir.
Proof.
  intros E. apply map_eq. intros x. rewrite prune_lookup, E.
  case_decide; [set_solver | done].
Qed.

End Prune.

(** * The whole cell: list, then delete *)

Section CleanUp.
Context {V : Type}.
Implicit Types (dir : gmap string V).

Lemma list_checkpoints_exist dir x :
  x ∈ list_checkpoints (Some dir) → is_Some (dir !! x).
Proof. rewrite elem_of_list_checkpoints. by intros [_ ?]. Qed.

(** Run on a directory it has just listed, the loop never fails: it removes
    the slice, whatever the retention count. *)
Lemma clean_up_keeping_removed keep_count dir :
  removed (clean_up_keeping keep_count dir)
  = slice_to (list_checkpoints (Some dir)) (- keep_count)
  ∧ raised (clean_up_keeping keep_count dir) = None.
Proof.
  apply prune_all.
  - apply NoDup_list_checkpoints.
  - apply list_checkpoints_exist.
Qed.

Lemma clean_up_keeping_lookup keep_count dir x :
  storage (clean_up_keeping keep_count dir) !! x
  = if decide (x ∈ removed (clean_up_keeping keep_count dir))
    then None else dir !! x.
Proof. apply prune_lookup. Qed.

(** What is listed afterwards is the rest of the earlier listing. *)
Lemma list_checkpoints_after keep_count dir :
  list_checkpoints (Some (storage (clean_up_keeping keep_count dir)))
  = drop (slice_stop (length (list_checkpoints (Some dir))) (- keep_count))
         (list_checkpoints (Some dir)).
Proof.
  set (l := list_checkpoints (Some dir)).
  set (m := slice_stop (length l) (- keep_count)).
  pose proof (NoDup_list_checkpoints (Some dir)) as ND. fold l in ND.
  pose proof (Sorted_list_checkpoints (Some dir)) as S. fold l in S.
  destruct (clean_up_keeping_removed keep_count dir) as [Hrem _].
  fold l in Hrem. unfold slice_to in Hrem. fold m in Hrem.
  apply (Sorted_unique str_le).
  - apply Sorted_list_checkpoints.
  - by apply Sorted_drop.
  - apply NoDup_Permutation.
    + apply NoDup_list_checkpoints.
    + eapply sublist_NoDup; [exact ND | apply sublist_drop].
    + intros x. rewrite elem_of_list_checkpoints, clean_up_keeping_lookup, Hrem.
      rewrite <- (take_drop m l) in ND. apply NoDup_app in ND as (_ & Hdisj & _).
      split.
      * intros [Hlike Hsome]. case_decide as Hin; [by destruct Hsome|].
        assert (Hl : x ∈ l) by (by apply elem_of_list_checkpoints).
        rewrite <- (take_drop m l) in Hl. set_solver.
      * intros Hx.
        assert (Hl : x ∈ l) by (by apply (subseteq_drop m l x)).
        apply elem_of_list_checkpoints in Hl as [Hlike Hsome].
        split; [done|]. rewrite decide_False; [done|].
        intros Hin. by apply (Hdisj x).
Qed.

End CleanUp.

(** * What the cell touches *)

(** C9.  Whatever the retention count, every name the cell removes has the
    prefix [check_] and the suffix [.pth] the pattern asks for, and every
    entry of the directory whose name is not of that shape is afterwards what
    it was before.  The notebook's two cells are the instance at three. *)
Theorem clean_up_frame {V} (keep_count : Z) (dir : gmap string V) :
  (∀ x, x ∈ removed (clean_up_keeping keep_count dir) →
        checkpoint_like x ∧ is_Some (dir !! x))
  ∧ (∀ x, ¬ checkpoint_like x →
          storage (clean_up_keeping keep_count dir) !! x = dir !! x)
  ∧ (∀ x, x ∈ removed (clean_up dir) → checkpoint_like x)
  ∧ (∀ x, ¬ checkpoint_like x → storage (clean_up dir) !! x = dir !! x).
Proof.
  assert (Hrem : ∀ k x, x ∈ removed (clean_up_keeping k dir) →
                        checkpoint_like x ∧ is_Some (dir !! x)).
  { intros k x Hx. apply elem_of_list_checkpoints.
    destruct (clean_up_keeping_removed k dir) as [E _]. rewrite E in Hx.
    by apply (subseteq_take _ _ x) in Hx. }
  assert (Hkeep : ∀ k x, ¬ checkpoint_like x →
                         storage (clean_up_keeping k dir) !! x = dir !! x).
  { intros k x Hx. rewrite clean_up_keeping_lookup.
    case_decide as Hin; [|done]. by destruct (Hrem k x Hin). }
  split; [apply Hrem|]. split; [apply Hkeep|].
  split; [intros x Hx; by destruct (Hrem 3%Z x Hx) | apply Hkeep].
Qed.

(** The model file next to five checkpoints is left alone. *)
Lemma clean_up_frame_witness :
  let dir : gmap string nat :=
    list_to_map [("check_0004.pth", 4); ("check_0001.pth", 1); ("model.pth", 0);
                 ("check_0005.pth", 5); ("check_0002.pth", 2); ("check_0003.pth", 3)] in
  ¬ checkpoint_like "model.pth"
  ∧ storage (clean_up dir) !! "model.pth" = Some 0.
Proof.
  intros dir.
  assert (N : ¬ checkpoint_like "model.pth").
  { intros H. apply selected_pattern in H. vm_compute in H. discriminate. }
  split; [done|].
  destruct (clean_up_frame 3 dir) as (_ & _ & _ & H).
  rewrite (H "model.pth" N). reflexivity.
Defined.

(** * The order of deletions *)

(** C10.  Whatever the list, the count and the directory, the names the loop
    removed, in the order it removed them, are a front part of the slice and
    so of the list; when the list is ascending they are ascending, and none
    of them is above a name of the list that was not removed. *)
Theorem prune_removed_prefix {V} (checkpoints : list string) (keep_count : Z)
    (dir : gmap string V) :
  removed (prune checkpoints keep_count dir)
    `prefix_of` slice_to checkpoints (- keep_count)
  ∧ removed (prune checkpoints keep_count dir) `prefix_of` checkpoints
  ∧ (Sorted str_le checkpoints →
     Sorted str_le (removed (prune checkpoints keep_count dir))
     ∧ ∀ x y, x ∈ removed (prune checkpoints keep_count dir) →
              y ∈ checkpoints →
              y ∉ removed (prune checkpoints keep_count dir) →
              str_le x y).
Proof.
  set (r := removed (prune checkpoints keep_count dir)).
  assert (P1 : r `prefix_of` slice_to checkpoints (- keep_count))
    by apply remove_each_removed_prefix.
  assert (P2 : r `prefix_of` checkpoints).
  { etrans; [exact P1 | apply slice_to_prefix]. }
  split; [done|]. split; [done|].
  intros S. destruct P2 as [rest E].
  assert (Er : r = take (length r) checkpoints).
  { by rewrite E, take_app_length. }
  split.
  - rewrite Er. by apply Sorted_take.
  - intros x y Hx Hy Hny.
    apply (Sorted_take_drop_le checkpoints (length r)); [done | by rewrite <- Er |].
    rewrite E, drop_app_length. rewrite E in Hy. set_solver.
Qed.

(** Five names, of which the second has already gone: the loop removes the
    first and stops. *)
Lemma prune_removed_prefix_witness :
  let checkpoints :=
    ["check_0001"; "check_0002"; "check_0003"; "check_0004"; "check_0005"] in
  let dir : gmap string nat :=
    list_to_map [("check_0001", 1); ("check_0003", 3);
                 ("check_0004", 4); ("check_0005", 5)] in
  Sorted str_le checkpoints
  ∧ removed (prune checkpoints 3 dir) = ["check_0001"]
  ∧ Sorted str_le (removed (prune checkpoints 3 dir)).
Proof.
  intros checkpoints dir.
  assert (S : Sorted str_le checkpoints) by by_computation.
  split; [done|]. split; [reflexivity|].
  destruct (prune_removed_prefix checkpoints 3 dir) as (_ & _ & H).
  by destruct (H S).
Defined.

(** * A name that is no longer there *)

(** C4, as amended.  [os.remove] of a name that is not in the directory
    raises [FileNotFoundError], and nothing catches it: the loop ends there
    with that exception.  The names before it in the slice have been removed,
    the directory is otherwise as it was, and the names after it in the slice
    are still there. *)
Theorem prune_stops_at_missing {V} (checkpoints : list string) (keep_count : Z)
    (dir : gmap string V) (before : list string) (file : string)
    (after : list string) :
  slice_to checkpoints (- keep_count) = before ++ file :: after →
  NoDup before →
  (∀ x, x ∈ before → is_Some (dir !! x)) →
  dir !! file = None →
  Os.remove file dir = Raise FileNotFoundError
  ∧ raised (prune checkpoints keep_count dir) = Some FileNotFoundError
  ∧ removed (prune checkpoints keep_count dir) = before
  ∧ (∀ x, storage (prune checkpoints keep_count dir) !! x
          = if decide (x ∈ before) then None else dir !! x)
  ∧ ¬ tolerates_missing checkpoints keep_count dir.
Proof.
  intros Hslice ND Hex Hnone.
  assert (R : removed (prune checkpoints keep_count dir) = before
              ∧ raised (prune checkpoints keep_count dir) = Some FileNotFoundError).
  { unfold prune. rewrite Hslice. apply remove_each_missing; auto. }
  destruct R as [Hrem Hraised].
  split; [unfold Os.remove; by rewrite Hnone|].
  split; [done|]. split; [done|]. split.
  - intros x. by rewrite prune_lookup, Hrem.
  - unfold tolerates_missing. congruence.
Qed.

(** Five names listed, the second gone since: the first is removed, the loop
    raises at the second. *)
Lemma prune_stops_at_missing_witness :
  let checkpoints :=
    ["check_0001"; "check_0002"; "check_0003"; "check_0004"; "check_0005"] in
  let dir : gmap string nat :=
    list_to_map [("check_0001", 1); ("check_0003", 3);
                 ("check_0004", 4); ("check_0005", 5)] in
  dir !! "check_0002" = None
  ∧ raised (prune checkpoints 2 dir) = Some FileNotFoundError
  ∧ removed (prune checkpoints 2 dir) = ["check_0001"]
  ∧ is_Some (storage (prune checkpoints 2 dir) !! "check_0003").
Proof.
  intros checkpoints dir.
  destruct (prune_stops_at_missing checkpoints 2 dir
              ["check_0001"] "check_0002" ["check_0003"])
    as (_ & H1 & H2 & H3 & _).
  - reflexivity.
  - by_computation.
  - apply Forall_forall. by_computation.
  - reflexivity.
  - split; [reflexivity|]. split; [done|]. split; [done|].
    rewrite H3. by_computation.
Defined.

(** C4 as stated fails: the oldest of five listed names has gone since, and
    the run with the notebook's count of three ends in [FileNotFoundError]
    with the second oldest still in place. *)
Lemma prune_missing_raises :
  let checkpoints :=
    ["check_0001"; "check_0002"; "check_0003"; "check_0004"; "check_0005"] in
  let dir : gmap string nat :=
    list_to_map [("check_0002", 2); ("check_0003", 3);
                 ("check_0004", 4); ("check_0005", 5)] in
  dir !! "check_0001" = None
  ∧ raised (prune checkpoints 3 dir) = Some FileNotFoundError
  ∧ storage (prune checkpoints 3 dir) !! "check_0002" = Some 2
  ∧ ¬ tolerates_missing checkpoints 3 dir.
Proof.
  intros checkpoints dir.
  split; [reflexivity|]. split; [reflexivity|]. split; [reflexivity|].
  unfold tolerates_missing. intros H. vm_compute in H. discriminate.
Qed.

(** * The newest checkpoint *)

Lemma getitem_last {A} (xs : list A) (x : A) :
  getitem (xs ++ [x]) (-1) = Return x.
Proof.
  unfold getitem. cbn [Z.ltb Z.compare].
  rewrite length_app. cbn [length].
  destruct (Z.ltb_spec (-1 + Z.of_nat (length xs + 1)) 0) as [?|_]; [lia|].
  replace (Z.to_nat (-1 + Z.of_nat (length xs + 1))) with (length xs) by lia.
  by rewrite list_lookup_middle.
Qed.

(** C3, as amended.  [checkpoints[-1]] on the empty list raises
    [IndexError]; on every list with at least one name it returns the last
    one, so ["check_0002"] for the two names of the example. *)
Theorem latest_spec :
  latest [] = Raise IndexError
  ∧ (∀ checkpoints x, latest (checkpoints ++ [x]) = Return x)
  ∧ (∀ checkpoints, checkpoints ≠ [] →
       ∃ x, last checkpoints = Some x ∧ latest checkpoints = Return x)
  ∧ latest ["check_0001"; "check_0002"] = Return "check_0002".
Proof.
  split; [reflexivity|]. split; [intros; apply getitem_last|]. split.
  - intros checkpoints Hne.
    destruct (exists_last Hne) as (l & x & ->).
    exists x. split; [apply last_snoc | apply getitem_last].
  - reflexivity.
Qed.

Lemma latest_spec_witness :
  ["check_0001"; "check_0002"; "check_0003"] ≠ []
  ∧ latest ["check_0001"; "check_0002"; "check_0003"] = Return "check_0003".
Proof.
  split; [done|].
  destruct latest_spec as (_ & _ & H & _).
  destruct (H ["check_0001"; "check_0002"; "check_0003"]) as (x & Hl & ->); [done|].
  vm_compute in Hl. congruence.
Defined.

(** C3 as stated fails on the empty list: the result is an exception, not a
    value standing for "no checkpoint". *)
Lemma latest_empty_raises :
  latest [] = Raise IndexError ∧ raises (latest []) ∧ ¬ returns (latest []).
Proof.
  split; [reflexivity|]. split; [by exists IndexError|].
  intros [a H]. discriminate.
Qed.

(** * Listing *)

(** C7.  For every pattern and every working directory, present or gone, the
    listing is ascending and without repetition; in a directory that is
    there it holds exactly the names of the directory that the pattern
    selects -- for the notebook's pattern, the names [check_....pth]; it is
    the same list in whatever order the file system enumerates the
    directory; and it is the empty list, not an exception, for an empty
    directory and for a directory that has gone. *)
Theorem list_checkpoints_spec (V : Type) :
  (∀ pat (cwd : option (gmap string V)),
     Sorted str_le (sorted (glob pat cwd)) ∧ NoDup (sorted (glob pat cwd)))
  ∧ (∀ pat (dir : gmap string V) x,
       x ∈ sorted (glob pat (Some dir))
       ↔ selected pat x = true ∧ is_Some (dir !! x))
  ∧ (∀ (dir : gmap string V) x,
       x ∈ list_checkpoints (Some dir)
       ↔ checkpoint_like x ∧ is_Some (dir !! x))
  ∧ (∀ pat (dir : gmap string V) entries,
       entries ≡ₚ scandir dir →
       sorted (glob1 pat entries) = sorted (glob pat (Some dir)))
  ∧ (∀ pat, sorted (glob pat (Some (∅ : gmap string V))) = [])
  ∧ (∀ pat, sorted (glob pat (None : option (gmap string V))) = []).
Proof.
  split; [|split; [|split; [|split; [|split]]]].
  - intros pat cwd. split; [apply sorted_Sorted | apply sorted_NoDup, NoDup_glob].
  - intros pat dir x. by rewrite sorted_elem_of, elem_of_glob.
  - intros dir x. apply elem_of_list_checkpoints.
  - intros pat dir entries P. apply sorted_perm_eq.
    unfold glob, glob1. by rewrite P.
  - intros pat. unfold glob, glob1, scandir. by rewrite map_to_list_empty.
  - done.
Qed.

(** The same six files, enumerated in two orders. *)
Lemma list_checkpoints_spec_witness :
  let dir : gmap string nat :=
    list_to_map [("check_0004.pth", 4); ("check_0001.pth", 1); ("model.pth", 0);
                 ("check_0005.pth", 5); ("check_0002.pth", 2); ("check_0003.pth", 3)] in
  reverse (scandir dir) ≡ₚ scandir dir
  ∧ sorted (glob1 pattern (reverse (scandir dir))) = list_checkpoints (Some dir)
  ∧ list_checkpoints (Some dir)
    = ["check_0001.pth"; "check_0002.pth"; "check_0003.pth";
       "check_0004.pth"; "check_0005.pth"].
Proof.
  intros dir.
  assert (P : reverse (scandir dir) ≡ₚ scandir dir) by apply reverse_Permutation.
  split; [done|]. split.
  - destruct (list_checkpoints_spec nat) as (_ & _ & _ & H & _).
    apply (H pattern dir _ P).
  - vm_compute. reflexivity.
Defined.

(** * The toy format *)

Lemma toy_loads_dumps o : toy_loads (toy_dumps o) = Some o.
Proof. by destruct o. Qed.

(** * Names and time *)

(** C2 at the turn of January to February 2021.  The checkpoint written on 31
    January sorts after the one written a second later on 1 February, because
    [%b] puts ["Jan"] and ["Feb"] where a number would stand: the names do
    not follow the order of writing. *)
Theorem month_names_break_order :
  let jan31 := {| tm_year := 2021; tm_mon := 1; tm_mday := 31;
                  tm_hour := 23; tm_min := 59; tm_sec := 59 |} in
  let feb01 := {| tm_year := 2021; tm_mon := 2; tm_mday := 1;
                  tm_hour := 0; tm_min := 0; tm_sec := 0 |} in
  valid jan31 ∧ valid feb01
  ∧ earlier jan31 feb01
  ∧ checkpoint_name jan31 = "check_2021_Jan_31_23_59_59.pth"
  ∧ checkpoint_name feb01 = "check_2021_Feb_01_00_00_00.pth"
  ∧ str_lt (checkpoint_name feb01) (checkpoint_name jan31)
  ∧ ¬ names_follow_time jan31 feb01.
Proof.
  intros jan31 feb01.
  assert (E : earlier jan31 feb01) by by_computation.
  assert (L : str_lt (checkpoint_name feb01) (checkpoint_name jan31))
    by by_computation.
  split; [unfold valid; simpl; lia|].
  split; [unfold valid; simpl; lia|].
  split; [done|].
  split; [vm_compute; reflexivity|].
  split; [vm_compute; reflexivity|].
  split; [done|].
  intros H. specialize (H E).
  by apply (str_le_not_lt _ _ (str_lt_le _ _ H)).
Qed.

(** What follows from it for the cells: of four checkpoints written on 29, 30
    and 31 January and on 1 February, the cell that keeps "the 3 newest"
    deletes the one of 1 February, and the one restored as "the newest" is
    that of 31 January. *)
Lemma clean_up_deletes_newest :
  let at_day mon day := {| tm_year := 2021; tm_mon := mon; tm_mday := day;
                           tm_hour := 12; tm_min := 0; tm_sec := 0 |} in
  let saves := [at_day 1 29; at_day 1 30; at_day 1 31; at_day 2 1] in
  let dir : gmap string nat :=
    list_to_map (zip (checkpoint_name <$> saves) [1; 2; 3; 4]) in
  removed (clean_up dir) = [checkpoint_name (at_day 2 1)]
  ∧ latest (list_checkpoints (Some dir)) = Return (checkpoint_name (at_day 1 31)).
Proof. intros at_day saves dir. split; vm_compute; reflexivity. Qed.

(** ** The fields other than the month are sound

    Within one month of one year the names do follow the clock: day, hour,
    minute and second are two digits each and stand in that order. *)

Lemma ascii_compare_refl c : Ascii.compare c c = Eq.
Proof. apply N.compare_refl. Qed.

Lemma string_compare_refl s : String.compare s s = Eq.
Proof. induction s as [|c s IH]; simpl; [done | by rewrite ascii_compare_refl]. Qed.

Lemma append_assoc s1 s2 s3 : (s1 +:+ s2) +:+ s3 = s1 +:+ (s2 +:+ s3).
Proof. induction s1 as [|c s1 IH]; [done|]. by rewrite !append_cons, IH. Qed.

Lemma compare_append_same p a b :
  String.compare (p +:+ a) (p +:+ b) = String.compare a b.
Proof.
  induction p as [|c p IH]; [done|].
  rewrite !append_cons. simpl. by rewrite ascii_compare_refl.
Qed.

(** Two blocks of equal length decide the comparison unless they are equal. *)
Lemma compare_blocks a1 a2 r1 r2 :
  String.length a1 = String.length a2 →
  String.compare (a1 +:+ r1) (a2 +:+ r2)
  = match String.compare a1 a2 with
    | Eq => String.compare r1 r2
    | c => c
    end.
Proof.
  revert a2. induction a1 as [|c1 a1 IH]; intros [|c2 a2] Hlen; try done.
  rewrite !append_cons. simpl. injection Hlen as Hlen.
  destruct (Ascii.compare c1 c2); [by apply IH | done | done].
Qed.

Lemma pad2_length n : n < 100 → String.length (pad2 n) = 2.
Proof.
  intros Hn.
  assert (H : Forall (λ n, String.length (pad2 n) = 2) (seq 0 100))
    by by_computation.
  rewrite Forall_forall in H. apply H, elem_of_seq. lia.
Qed.

Lemma pad2_compare n1 n2 :
  n1 < 100 → n2 < 100 → String.compare (pad2 n1) (pad2 n2) = Nat.compare n1 n2.
Proof.
  intros H1 H2.
  assert (H : Forall (λ n1, Forall (λ n2,
                String.compare (pad2 n1) (pad2 n2) = Nat.compare n1 n2)
                (seq 0 100)) (seq 0 100)) by by_computation.
  rewrite Forall_forall in H.
  specialize (H n1). rewrite Forall_forall in H.
  apply H; apply elem_of_seq; lia.
Qed.

(** A two-digit field followed by a separator and the rest. *)
Lemma compare_field n1 n2 sep r1 r2 :
  n1 < 100 → n2 < 100 →
  String.compare (pad2 n1 +:+ String sep r1) (pad2 n2 +:+ String sep r2)
  = match Nat.compare n1 n2 with
    | Eq => String.compare r1 r2
    | c => c
    end.
Proof.
  intros H1 H2.
  rewrite compare_blocks by (by rewrite !pad2_length).
  rewrite pad2_compare by done.
  destruct (Nat.compare n1 n2); [|done..].
  simpl. by rewrite ascii_compare_refl.
Qed.

Lemma checkpoint_name_unfold t :
  checkpoint_name t
  = ("check_" +:+ decimal (tm_year t) +:+ "_"
     +:+ abbreviated_month (tm_mon t) +:+ "_")
    +:+ pad2 (tm_mday t) +:+ String "_"
         (pad2 (tm_hour t) +:+ String "_"
           (pad2 (tm_min t) +:+ String "_"
             (pad2 (tm_sec t) +:+ String "." "pth"))).
Proof.
  unfold checkpoint_name, timestamp.
  cbn [strftime directive Ascii.eqb Bool.eqb].
  rewrite !append_assoc, ?append_cons, ?append_nil_l.
  repeat (rewrite ?append_assoc, ?append_cons, ?append_nil_l; f_equal).
Qed.

Lemma names_follow_time_within_month t1 t2 :
  valid t1 → valid t2 →
  tm_year t1 = tm_year t2 → tm_mon t1 = tm_mon t2 →
  names_follow_time t1 t2.
Proof.
  intros (_ & Hd1 & Hh1 & Hm1 & Hs1) (_ & Hd2 & Hh2 & Hm2 & Hs2) Hy Hmon.
  unfold names_follow_time, earlier, tm_fields, str_lt, String.ltb.
  rewrite !checkpoint_name_unfold, <- Hy, <- Hmon.
  cbn [lex_compare]. rewrite !Nat.compare_refl.
  rewrite compare_append_same.
  rewrite !compare_field by lia.
  rewrite string_compare_refl.
  intros H.
  destruct (Nat.compare (tm_mday t1) (tm_mday t2)); try done.
  destruct (Nat.compare (tm_hour t1) (tm_hour t2)); try done.
  destruct (Nat.compare (tm_min t1) (tm_min t2)); try done.
  destruct (Nat.compare (tm_sec t1) (tm_sec t2)); try done.
Qed.

(** * The training loops *)

Lemma elem_of_range a b e : e ∈ range a b ↔ (a ≤ e < b)%Z.
Proof. unfold range. rewrite elem_of_seqZ. lia. Qed.

Lemma range_snoc a b : (a ≤ b)%Z → range a (b + 1) = range a b ++ [b].
Proof.
  intros Hab. unfold range.
  replace (b + 1 - a)%Z with ((b - a) + 1)%Z by lia.
  rewrite seqZ_app by lia.
  replace (a + (b - a))%Z with b by lia. done.
Qed.

Lemma checkpoint_name_like t : checkpoint_like (checkpoint_name t).
Proof. by exists (timestamp t). Qed.

Section LoopFacts.
Context {sd bytes : Type}.
Variable dumps : checkpoint sd → bytes.
Variable loads : bytes → option (checkpoint sd).
Variable train_epoch : Z → trainer sd → trainer sd.
Variable EPOCHS : Z.
Variable clock : Z → struct_time.
Implicit Types (st : trainer sd * gmap string bytes) (epochs : list Z).

Local Abbreviation loop := (training_loop dumps train_epoch EPOCHS clock).
Local Abbreviation body := (epoch_body dumps train_epoch EPOCHS clock).

Lemma training_loop_snoc epochs e st :
  loop (epochs ++ [e]) st = body (loop epochs st) e.
Proof. unfold training_loop. by rewrite fold_left_app. Qed.

Lemma training_loop_trained epochs st :
  (loop epochs st).1 = trained train_epoch epochs st.1.
Proof.
  revert st. induction epochs as [|e epochs IH]; intros st; [done|].
  unfold training_loop, trained in *. simpl. by rewrite IH.
Qed.

(** The entries after the loop are the entries before it and the files of
    the saves that were due. *)
Lemma training_loop_keys epochs st x :
  is_Some ((loop epochs st).2 !! x)
  ↔ is_Some (st.2 !! x)
    ∨ ∃ e, e ∈ epochs ∧ save_due EPOCHS e = true ∧ x = checkpoint_name (clock e).
Proof.
  revert st. induction epochs as [|e epochs IH]; intros st.
  - simpl. split; [auto | intros [?|(e & He & _)]; [done | set_solver]].
  - unfold training_loop in *. cbn [fold_left]. rewrite IH.
    unfold epoch_body. cbn [snd fst].
    destruct (save_due EPOCHS e) eqn:Hdue.
    + unfold save_checkpoint, Torch.save.
      destruct (decide (x = checkpoint_name (clock e))) as [->|Hne].
      * rewrite lookup_insert_eq. split; [|by eauto].
        intros _. right. exists e. split; [set_solver | done].
      * rewrite lookup_insert_ne by done. split.
        -- intros [?|(e' & He' & ? & ?)]; [by left|].
           right. exists e'. split; [set_solver | done].
        -- intros [?|(e' & He' & Hd' & ->)]; [by left|].
           right. exists e'. split; [|done].
           apply elem_of_cons in He' as [->|?]; [done | done].
    + split.
      * intros [?|(e' & He' & ? & ?)]; [by left|].
        right. exists e'. split; [set_solver | done].
      * intros [?|(e' & He' & Hd' & ->)]; [by left|].
        right. exists e'. split; [|done].
        apply elem_of_cons in He' as [->|?]; [congruence | done].
Qed.

(** A name that no due save writes to holds afterwards what it held before. *)
Lemma training_loop_other epochs st x :
  (∀ e, e ∈ epochs → save_due EPOCHS e = true → x ≠ checkpoint_name (clock e)) →
  (loop epochs st).2 !! x = st.2 !! x.
Proof.
  revert st. induction epochs as [|e epochs IH]; intros st Hx; [done|].
  unfold training_loop in *. cbn [fold_left]. rewrite IH.
  - unfold epoch_body. cbn [snd fst].
    destruct (save_due EPOCHS e) eqn:Hdue; [|done].
    unfold save_checkpoint, Torch.save. rewrite lookup_insert_ne; [done|].
    intros E. apply (Hx e); [set_solver | done | done].
  - intros e' He'. apply Hx. set_solver.
Qed.

(** X3.  Whatever epochs a loop runs over, it writes only to names of the
    shape [check_....pth]: every other entry of the directory is afterwards
    what it was; no entry disappears; and every entry there is afterwards
    was there before or is the file of a save that was due. *)
Theorem training_loop_frame epochs st :
  (∀ x, ¬ checkpoint_like x → (loop epochs st).2 !! x = st.2 !! x)
  ∧ (∀ x, is_Some (st.2 !! x) → is_Some ((loop epochs st).2 !! x))
  ∧ (∀ x, is_Some ((loop epochs st).2 !! x) →
          is_Some (st.2 !! x)
          ∨ ∃ e, e ∈ epochs ∧ save_due EPOCHS e = true
                 ∧ x = checkpoint_name (clock e)).
Proof.
  split; [|split].
  - intros x Hx. apply training_loop_other.
    intros e _ _ ->. apply Hx, checkpoint_name_like.
  - intros x Hx. apply training_loop_keys. by left.
  - intros x Hx. by apply training_loop_keys.
Qed.

(** What the last epoch of a loop leaves when its save is due: the file of
    that save holds the state the loop ends in. *)
Lemma training_loop_last_saved epochs e st :
  save_due EPOCHS e = true →
  (loop (epochs ++ [e]) st).2 !! checkpoint_name (clock e)
  = Some (dumps {| epoch := e;
                   model_state_dict := network (loop (epochs ++ [e]) st).1;
                   optimizer_state_dict := optimizer (loop (epochs ++ [e]) st).1 |}).
Proof.
  intros Hdue. rewrite training_loop_snoc. unfold epoch_body. cbn [fst snd].
  rewrite Hdue. unfold save_checkpoint, Torch.save. by rewrite lookup_insert_eq.
Qed.

(** And when it is not due: the directory is as the epochs before left it. *)
Lemma training_loop_last_unsaved epochs e st :
  save_due EPOCHS e = false →
  (loop (epochs ++ [e]) st).2 = (loop epochs st).2
  ∧ (loop (epochs ++ [e]) st).1 = train_epoch e (loop epochs st).1.
Proof.
  intros Hdue. rewrite training_loop_snoc. unfold epoch_body. cbn [fst snd].
  by rewrite Hdue.
Qed.

End LoopFacts.

(** * Saving, listing, deleting and restoring together *)

(** X1.  A save shows up in the listing: after the saving cell the names
    listed are the name just written and the names listed before, no more
    and no fewer. *)
Theorem save_checkpoint_listed {sd bytes : Type} (dumps : checkpoint sd → bytes)
    (ep : Z) (tr : trainer sd) (t : struct_time) (dir : gmap string bytes)
    (x : string) :
  x ∈ list_checkpoints (Some (save_checkpoint dumps ep tr t dir))
  ↔ x = checkpoint_name t ∨ x ∈ list_checkpoints (Some dir).
Proof.
  rewrite !elem_of_list_checkpoints. unfold save_checkpoint, Torch.save.
  destruct (decide (x = checkpoint_name t)) as [->|Hne].
  - rewrite lookup_insert_eq. split; [by left|].
    intros _. split; [apply checkpoint_name_like | by eauto].
  - rewrite lookup_insert_ne by done. split; [by right|].
    by intros [?|?].
Qed.

Section AfterCleanUp.
Context {V : Type}.
Implicit Types (dir : gmap string V).

(** With a retention count of at least one, the last name of the listing is
    not among the names the cell removes: its file is left as it is. *)
Lemma clean_up_keeps_last keep_count dir front x :
  (1 ≤ keep_count)%Z →
  list_checkpoints (Some dir) = front ++ [x] →
  storage (clean_up_keeping keep_count dir) !! x = dir !! x.
Proof.
  intros Hk Hl. rewrite clean_up_keeping_lookup.
  destruct (clean_up_keeping_removed keep_count dir) as [Hrem _].
  rewrite Hrem, slice_to_keep, Hl by done.
  pose proof (NoDup_list_checkpoints (Some dir)) as ND. rewrite Hl in ND.
  apply NoDup_app in ND as (_ & Hdisj & _).
  rewrite decide_False; [done|].
  rewrite length_app. cbn [length].
  rewrite take_app_le by lia.
  intros Hin. apply (subseteq_take _ _ x) in Hin.
  apply (Hdisj x Hin). set_solver.
Qed.

End AfterCleanUp.

Section RestoreAfterCleanUp.
Context {sd bytes : Type}.
Variable loads : bytes → option (checkpoint sd).

(** X7.  With a retention count of at least one the deleting cell does not
    change what the restoring cell does: restoring from the list made before
    the deletion gives, on the directory after the deletion, what it gives on
    the directory before it -- the same state and epoch, or the same
    exception. *)
Theorem restore_after_clean_up (keep_count : Z) (dir : gmap string bytes) :
  (1 ≤ keep_count)%Z →
  restore loads (list_checkpoints (Some dir))
    (storage (clean_up_keeping keep_count dir))
  = restore loads (list_checkpoints (Some dir)) dir.
Proof.
  intros Hk. unfold restore.
  destruct (list_checkpoints (Some dir)) as [|y l] eqn:Hl using rev_ind; [done|].
  unfold latest. rewrite getitem_last.
  unfold restore_from, Torch.load.
  by rewrite (clean_up_keeps_last keep_count dir l y).
Qed.

End RestoreAfterCleanUp.

(** Five checkpoints under the toy format, the notebook's count of three. *)
Lemma restore_after_clean_up_witness :
  let file e := toy_dumps {| epoch := e; model_state_dict := e;
                             optimizer_state_dict := e |} in
  let dir : gmap string (list Z) :=
    list_to_map [("check_0001.pth", file 200%Z); ("check_0002.pth", file 400%Z);
                 ("check_0003.pth", file 600%Z); ("check_0004.pth", file 800%Z);
                 ("check_0005.pth", file 1000%Z)] in
  (1 ≤ 3)%Z
  ∧ restore toy_loads (list_checkpoints (Some dir)) (storage (clean_up dir))
    = Return ({| network := 1000; optimizer := 1000 |}, 1000)%Z.
Proof.
  intros file dir. split; [lia|].
  unfold clean_up.
  rewrite (restore_after_clean_up toy_loads 3 dir) by lia.
  vm_compute. reflexivity.
Defined.

(** * What the loops leave on disk *)

(** The last name of an ascending list is above every name of the list. *)
Lemma Sorted_last_max front y x :
  Sorted str_le (front ++ [y]) → x ∈ front ++ [y] → str_le x y.
Proof.
  intros S Hx. apply (Sorted_StronglySorted str_le) in S.
  apply elem_of_app in Hx as [Hx|Hx].
  - eapply (StronglySorted_app_1_elem_of str_le); [done.. | set_solver].
  - apply list_elem_of_singleton in Hx as ->. reflexivity.
Qed.

Lemma save_due_final EPOCHS : save_due EPOCHS EPOCHS = true.
Proof. unfold save_due. by rewrite Z.eqb_refl, orb_true_r. Qed.

Section Runs.
Context {sd bytes : Type}.
Variable dumps : checkpoint sd → bytes.
Variable loads : bytes → option (checkpoint sd).
Variable train_epoch : Z → trainer sd → trainer sd.
Variable EPOCHS : Z.
Variable clock : Z → struct_time.
Implicit Types (st : trainer sd * gmap string bytes).

Hypothesis loads_dumps : ∀ o, loads (dumps o) = Some o.

Local Abbreviation run1 := (first_run dumps train_epoch EPOCHS clock).

Lemma first_run_final_file st :
  (1 ≤ EPOCHS)%Z →
  (run1 st).2 !! checkpoint_name (clock EPOCHS)
  = Some (dumps {| epoch := EPOCHS;
                   model_state_dict := network (run1 st).1;
                   optimizer_state_dict := optimizer (run1 st).1 |}).
Proof.
  intros HE. unfold first_run. rewrite range_snoc by lia.
  apply training_loop_last_saved, save_due_final.
Qed.

Lemma restore_from_file path (dir : gmap string bytes) ep net opt :
  dir !! path = Some (dumps {| epoch := ep; model_state_dict := net;
                               optimizer_state_dict := opt |}) →
  restore_from loads path dir = Return ({| network := net; optimizer := opt |}, ep).
Proof.
  intros H. unfold restore_from, Torch.load. by rewrite H, loads_dumps.
Qed.

(** X4.  The first loop, run for at least one epoch, always ends with its
    final state on disk: the file named after the clock reading of the last
    epoch restores to the network and optimizer the loop ended with -- all
    epochs applied in order -- and to the epoch count [EPOCHS]. *)
Theorem first_run_saves_final_state st :
  (1 ≤ EPOCHS)%Z →
  (run1 st).1 = trained train_epoch (range 1 (EPOCHS + 1)) st.1
  ∧ restore_from loads (checkpoint_name (clock EPOCHS)) (run1 st).2
    = Return ((run1 st).1, EPOCHS).
Proof.
  intros HE. split; [apply training_loop_trained|].
  rewrite (restore_from_file _ _ _ _ _ (first_run_final_file st HE)).
  by destruct (run1 st).1.
Qed.

(** X5.  The resumed loop tests [epoch == EPOCHS] although it counts from
    [last_epoch]: unless its final epoch happens to be a multiple of 200,
    the state it ends with is not saved.  The directory is what the epochs
    before the final one left; only the trainer has moved on. *)
Theorem resumed_run_final_epoch_unsaved (last_epoch : Z) st :
  (2 ≤ last_epoch)%Z →
  (1 ≤ EPOCHS)%Z →
  ((last_epoch + EPOCHS - 1) mod 200 ≠ 0)%Z →
  let final := (last_epoch + EPOCHS - 1)%Z in
  let before :=
    training_loop dumps train_epoch EPOCHS clock (range last_epoch final) st in
  (resumed_run dumps train_epoch EPOCHS clock last_epoch st).2 = before.2
  ∧ (resumed_run dumps train_epoch EPOCHS clock last_epoch st).1
    = train_epoch final before.1.
Proof.
  intros Hlast HE Hmod final before. unfold resumed_run.
  replace (last_epoch + EPOCHS)%Z with (final + 1)%Z by (unfold final; lia).
  rewrite range_snoc by (unfold final; lia).
  apply training_loop_last_unsaved.
  unfold save_due. apply orb_false_iff. split.
  - by apply Z.eqb_neq.
  - apply Z.eqb_neq. unfold final. lia.
Qed.

(** X8.  The cells from training to restoring, run in order in a directory
    that holds no checkpoint yet: when the saves of the loop fall into one
    month of one year and the last save is later on the clock than the ones
    before it, the restoring cell ends with the state the training ended
    with and the epoch count [EPOCHS]. *)
Theorem notebook_restores_final_state st :
  (1 ≤ EPOCHS)%Z →
  (∀ x, checkpoint_like x → st.2 !! x = None) →
  (∀ e, (1 ≤ e ≤ EPOCHS)%Z → save_due EPOCHS e = true →
        valid (clock e)
        ∧ tm_year (clock e) = tm_year (clock EPOCHS)
        ∧ tm_mon (clock e) = tm_mon (clock EPOCHS)) →
  (∀ e, (1 ≤ e < EPOCHS)%Z → save_due EPOCHS e = true →
        earlier (clock e) (clock EPOCHS)) →
  notebook dumps loads train_epoch EPOCHS clock st
  = Return (trained train_epoch (range 1 (EPOCHS + 1)) st.1, EPOCHS).
Proof.
  intros HE Hfresh Hmonth Hlater.
  pose proof (first_run_final_file st HE) as Hfile.
  pose proof (training_loop_trained dumps train_epoch EPOCHS clock
                (range 1 (EPOCHS + 1)) st) as Htr.
  fold (first_run dumps train_epoch EPOCHS clock st) in Htr.
  unfold notebook. cbv zeta.
  set (st1 := run1 st) in *.
  set (last_name := checkpoint_name (clock EPOCHS)) in *.
  assert (Hmax : ∀ x, x ∈ list_checkpoints (Some st1.2) → str_le x last_name).
  { intros x [Hlike Hsome]%elem_of_list_checkpoints.
    apply (proj1 (training_loop_keys dumps train_epoch EPOCHS clock
                    (range 1 (EPOCHS + 1)) st x))
      in Hsome as [Hold|(e & He & Hdue & ->)].
    - rewrite (Hfresh x Hlike) in Hold. by destruct Hold.
    - apply elem_of_range in He.
      destruct (decide (e = EPOCHS)) as [->|Hne]; [reflexivity|].
      apply str_lt_le.
      destruct (Hmonth e) as (Hv & Hy & Hm); [lia | done |].
      destruct (Hmonth EPOCHS) as (HvE & _ & _); [lia | apply save_due_final |].
      apply names_follow_time_within_month; [done.. |].
      apply Hlater; [lia | done]. }
  assert (Hin : last_name ∈ list_checkpoints (Some st1.2)).
  { apply elem_of_list_checkpoints.
    split; [apply checkpoint_name_like | by rewrite Hfile]. }
  pose proof (Sorted_list_checkpoints (Some st1.2)) as HS.
  pose proof (clean_up_keeps_last 3 st1.2) as Hkeep.
  destruct (clean_up_keeping_removed 3 st1.2) as [_ Hraised].
  unfold clean_up_keeping in Hraised, Hkeep.
  destruct (list_checkpoints (Some st1.2)) as [|y front _] using rev_ind;
    [by apply elem_of_nil in Hin|].
  assert (y = last_name) as ->.
  { apply (anti_symm str_le).
    - apply Hmax. set_solver.
    - by apply (Sorted_last_max front). }
  rewrite Hraised. unfold restore, latest. rewrite getitem_last.
  unfold restore_from, Torch.load.
  rewrite (Hkeep front last_name) by (lia || done).
  rewrite Hfile, loads_dumps, <- Htr. by destruct st1.1.
Qed.

End Runs.

(** * One name per second *)

Lemma string_length_append a b :
  String.length (a +:+ b) = String.length a + String.length b.
Proof. induction a as [|c a IH]; [done|]. rewrite append_cons. simpl. by rewrite IH. Qed.

(** Two texts that start with blocks of equal length are equal only when
    the blocks are and the rests are. *)
Lemma append_inj_length a1 a2 r1 r2 :
  String.length a1 = String.length a2 →
  a1 +:+ r1 = a2 +:+ r2 → a1 = a2 ∧ r1 = r2.
Proof.
  revert a2. induction a1 as [|c1 a1 IH]; intros [|c2 a2] Hlen E; try done.
  rewrite !append_cons in E. injection E as -> E. injection Hlen as Hlen.
  destruct (IH a2 Hlen E) as [-> ->]. done.
Qed.

Lemma decimal_inj n1 n2 : decimal n1 = decimal n2 → n1 = n2.
Proof.
  unfold decimal. intros E. apply Unsigned.to_uint_inj.
  pose proof (NilEmpty.usu (Nat.to_uint n1)) as H1.
  pose proof (NilEmpty.usu (Nat.to_uint n2)) as H2.
  rewrite E in H1. congruence.
Qed.

Lemma pad2_inj n1 n2 : n1 < 100 → n2 < 100 → pad2 n1 = pad2 n2 → n1 = n2.
Proof.
  intros H1 H2 E. apply Nat.compare_eq.
  rewrite <- pad2_compare, E by done. apply string_compare_refl.
Qed.

Lemma abbreviated_month_length mon :
  1 ≤ mon ≤ 12 → String.length (abbreviated_month mon) = 3.
Proof.
  intros Hm.
  assert (H : Forall (λ mon, String.length (abbreviated_month mon) = 3) (seq 1 12))
    by by_computation.
  rewrite Forall_forall in H. apply H, elem_of_seq. lia.
Qed.

Lemma abbreviated_month_inj m1 m2 :
  1 ≤ m1 ≤ 12 → 1 ≤ m2 ≤ 12 →
  abbreviated_month m1 = abbreviated_month m2 → m1 = m2.
Proof.
  intros H1 H2.
  assert (H : Forall (λ m1, Forall (λ m2,
                abbreviated_month m1 = abbreviated_month m2 → m1 = m2)
                (seq 1 12)) (seq 1 12)) by by_computation.
  rewrite Forall_forall in H.
  specialize (H m1). rewrite Forall_forall in H.
  apply H; apply elem_of_seq; lia.
Qed.

(** The name, part by part. *)
Lemma checkpoint_name_parts t :
  checkpoint_name t
  = "check_" +:+ (decimal (tm_year t) +:+ String "_"
      (abbreviated_month (tm_mon t) +:+ String "_"
        (pad2 (tm_mday t) +:+ String "_"
          (pad2 (tm_hour t) +:+ String "_"
            (pad2 (tm_min t) +:+ String "_"
              (pad2 (tm_sec t) +:+ ".pth")))))).
Proof.
  unfold checkpoint_name, timestamp.
  cbn [strftime directive Ascii.eqb Bool.eqb].
  repeat (rewrite ?append_assoc, ?append_cons, ?append_nil_l; f_equal).
Qed.

(** What follows the year has twenty characters. *)
Lemma after_year_length mon d h m s rest :
  1 ≤ mon ≤ 12 → d < 100 → h < 100 → m < 100 → s < 100 →
  String.length
    (String "_" (abbreviated_month mon +:+ String "_"
      (pad2 d +:+ String "_" (pad2 h +:+ String "_"
        (pad2 m +:+ String "_" (pad2 s +:+ rest))))))
  = 16 + String.length rest.
Proof.
  intros Hmon Hd Hh Hm Hs.
  cbn [String.length].
  rewrite !string_length_append. cbn [String.length].
  rewrite !string_length_append. cbn [String.length].
  rewrite !string_length_append. cbn [String.length].
  rewrite !string_length_append. cbn [String.length].
  rewrite !string_length_append.
  rewrite abbreviated_month_length, !pad2_length by done. lia.
Qed.

(** X2.  Two clock readings give the same checkpoint name only when they are
    the same reading: saves at different seconds never write to one file. *)
Theorem checkpoint_name_inj t1 t2 :
  valid t1 → valid t2 →
  checkpoint_name t1 = checkpoint_name t2 → t1 = t2.
Proof.
  intros (Hmon1 & Hd1 & Hh1 & Hm1 & Hs1) (Hmon2 & Hd2 & Hh2 & Hm2 & Hs2).
  rewrite !checkpoint_name_parts. intros E.
  apply append_inj_length in E as [_ E]; [|done].
  assert (Hlen : String.length (decimal (tm_year t1))
                 = String.length (decimal (tm_year t2))).
  { apply (f_equal String.length) in E.
    rewrite !string_length_append, !after_year_length in E by lia. lia. }
  apply append_inj_length in E as [Ey E]; [|done].
  injection E as E.
  apply append_inj_length in E as [Emon E];
    [|by rewrite !abbreviated_month_length].
  injection E as E.
  apply append_inj_length in E as [Ed E]; [|rewrite !pad2_length; lia].
  injection E as E.
  apply append_inj_length in E as [Eh E]; [|rewrite !pad2_length; lia].
  injection E as E.
  apply append_inj_length in E as [Em E]; [|rewrite !pad2_length; lia].
  injection E as E.
  apply append_inj_length in E as [Es _]; [|rewrite !pad2_length; lia].
  apply decimal_inj in Ey. apply abbreviated_month_inj in Emon; [|done..].
  apply pad2_inj in Ed; [|lia..]. apply pad2_inj in Eh; [|lia..].
  apply pad2_inj in Em; [|lia..]. apply pad2_inj in Es; [|lia..].
  destruct t1, t2. simpl in *. by subst.
Qed.

Lemma checkpoint_name_inj_witness :
  let t1 := {| tm_year := 2021; tm_mon := 9; tm_mday := 19;
               tm_hour := 17; tm_min := 24; tm_sec := 39 |} in
  let t2 := {| tm_year := 2021; tm_mon := 9; tm_mday := 19;
               tm_hour := 17; tm_min := 24; tm_sec := 40 |} in
  valid t1 ∧ valid t2 ∧ checkpoint_name t1 ≠ checkpoint_name t2.
Proof.
  intros t1 t2.
  assert (V1 : valid t1) by (unfold valid; simpl; lia).
  assert (V2 : valid t2) by (unfold valid; simpl; lia).
  split; [done|]. split; [done|].
  intros E. apply (checkpoint_name_inj t1 t2 V1 V2) in E. discriminate.
Defined.

(** * The statements on runs, tried on a small training *)

(** X9.  Within one month of one year the names follow the clock: of two
    readings with the same year and month, the earlier one gives the name
    that sorts first. *)
Theorem names_follow_clock_within_month t1 t2 :
  valid t1 → valid t2 →
  tm_year t1 = tm_year t2 → tm_mon t1 = tm_mon t2 →
  earlier t1 t2 →
  str_lt (checkpoint_name t1) (checkpoint_name t2)
  ∧ checkpoint_name t1 ≠ checkpoint_name t2.
Proof.
  intros V1 V2 Hy Hm He.
  pose proof (names_follow_time_within_month t1 t2 V1 V2 Hy Hm He) as Hlt.
  split; [done | by apply str_lt_ne].
Qed.

(** The first and the last file of the notebook's own listing. *)
Lemma names_follow_clock_within_month_witness :
  let t1 := {| tm_year := 2021; tm_mon := 9; tm_mday := 19;
               tm_hour := 17; tm_min := 24; tm_sec := 39 |} in
  let t2 := {| tm_year := 2021; tm_mon := 9; tm_mday := 19;
               tm_hour := 17; tm_min := 24; tm_sec := 44 |} in
  earlier t1 t2
  ∧ str_lt "check_2021_Sep_19_17_24_39.pth" "check_2021_Sep_19_17_24_44.pth".
Proof.
  intros t1 t2.
  assert (E : earlier t1 t2) by by_computation.
  split; [done|].
  destruct (names_follow_clock_within_month t1 t2) as [H _];
    [unfold valid; simpl; lia | unfold valid; simpl; lia | done | done | done |].
  exact H.
Defined.

(** A model file next to which two epochs train and none saves. *)
Lemma training_loop_frame_witness :
  let train (e : Z) (tr : trainer Z) :=
    {| network := (network tr + e)%Z; optimizer := (optimizer tr + 1)%Z |} in
  let clock (e : Z) := {| tm_year := 2021; tm_mon := 9; tm_mday := 19;
                          tm_hour := 17; tm_min := 24; tm_sec := 39 |} in
  let st : trainer Z * gmap string (list Z) :=
    ({| network := 0%Z; optimizer := 0%Z |}, {[ "model.pth" := [] ]}) in
  ¬ checkpoint_like "model.pth"
  ∧ (training_loop toy_dumps train 400 clock (range 1 401) st).2 !! "model.pth"
    = Some [].
Proof.
  intros train clock st.
  assert (N : ¬ checkpoint_like "model.pth").
  { intros H. apply selected_pattern in H. vm_compute in H. discriminate. }
  split; [done|].
  destruct (training_loop_frame toy_dumps train 400 clock (range 1 401) st)
    as (H & _ & _).
  rewrite (H "model.pth" N). reflexivity.
Defined.

(** Four hundred epochs under the toy format. *)
Lemma first_run_saves_final_state_witness :
  let train (e : Z) (tr : trainer Z) :=
    {| network := (network tr + e)%Z; optimizer := (optimizer tr + 1)%Z |} in
  let clock (e : Z) := {| tm_year := 2021; tm_mon := 9; tm_mday := 19;
                          tm_hour := 17; tm_min := 24;
                          tm_sec := Z.to_nat (e / 200) |} in
  let st : trainer Z * gmap string (list Z) :=
    ({| network := 0%Z; optimizer := 0%Z |}, ∅) in
  (1 ≤ 400)%Z
  ∧ restore_from toy_loads (checkpoint_name (clock 400%Z))
      (first_run toy_dumps train 400 clock st).2
    = Return ((first_run toy_dumps train 400 clock st).1, 400%Z).
Proof.
  intros train clock st. split; [lia|].
  apply (first_run_saves_final_state toy_dumps toy_loads train 400 clock
           toy_loads_dumps st).
  lia.
Defined.

(** The notebook's own numbers: a thousand epochs resumed from epoch one
    thousand; epoch 1999 is the last and is not saved. *)
Lemma resumed_run_final_epoch_unsaved_witness :
  let train (e : Z) (tr : trainer Z) :=
    {| network := (network tr + e)%Z; optimizer := (optimizer tr + 1)%Z |} in
  let clock (e : Z) := {| tm_year := 2021; tm_mon := 9; tm_mday := 19;
                          tm_hour := 17; tm_min := 24;
                          tm_sec := Z.to_nat (e / 200) |} in
  let st : trainer Z * gmap string (list Z) :=
    ({| network := 0%Z; optimizer := 0%Z |}, ∅) in
  ((1000 + 1000 - 1) mod 200 ≠ 0)%Z
  ∧ (resumed_run toy_dumps train 1000 clock 1000 st).2
    = (training_loop toy_dumps train 1000 clock (range 1000 1999) st).2.
Proof.
  intros train clock st.
  assert (Hmod : ((1000 + 1000 - 1) mod 200 ≠ 0)%Z) by (vm_compute; discriminate).
  split; [done|].
  destruct (resumed_run_final_epoch_unsaved toy_dumps train 1000 clock 1000 st)
    as [H _]; [lia | lia | done |].
  exact H.
Defined.

(** Four hundred epochs next to a model file, the last save one second after
    the one before. *)
Lemma notebook_restores_final_state_witness :
  let train (e : Z) (tr : trainer Z) :=
    {| network := (network tr + e)%Z; optimizer := (optimizer tr + 1)%Z |} in
  let clock (e : Z) := {| tm_year := 2021; tm_mon := 9; tm_mday := 19;
                          tm_hour := 17; tm_min := 24;
                          tm_sec := if (e <? 400)%Z then 39 else 40 |} in
  let st : trainer Z * gmap string (list Z) :=
    ({| network := 0%Z; optimizer := 0%Z |}, {[ "model.pth" := [] ]}) in
  (∀ x, checkpoint_like x → st.2 !! x = None)
  ∧ notebook toy_dumps toy_loads train 400 clock st
    = Return (trained train (range 1 401) st.1, 400%Z).
Proof.
  intros train clock st.
  assert (Hfresh : ∀ x, checkpoint_like x → st.2 !! x = None).
  { intros x Hx. apply lookup_singleton_ne. intros <-.
    apply selected_pattern in Hx. vm_compute in Hx. discriminate. }
  split; [done|].
  apply (notebook_restores_final_state toy_dumps toy_loads train 400 clock
           toy_loads_dumps st).
  - lia.
  - done.
  - intros e _ _. unfold clock, valid. destruct (e <? 400)%Z; simpl; lia.
  - intros e He _. unfold clock.
    destruct (Z.ltb_spec e 400); [by_computation | lia].
Defined.

(** * Saves within one second *)

Section SameSecond.
Context {sd bytes : Type}.
Variable dumps : checkpoint sd → bytes.
Variable loads : bytes → option (checkpoint sd).
Variable train_epoch : Z → trainer sd → trainer sd.
Variable EPOCHS : Z.
Variable clock : Z → struct_time.
Implicit Types (st : trainer sd * gmap string bytes).

Hypothesis loads_dumps : ∀ o, loads (dumps o) = Some o.

(** X10.  The name has the resolution of a second, and a save overwrites.
    When every save of the first loop reads the same second, a directory
    that held no checkpoint ends with a single checkpoint file, and it holds
    the final state: the earlier saves are gone. *)
Theorem first_run_within_one_second st :
  (1 ≤ EPOCHS)%Z →
  (∀ x, checkpoint_like x → st.2 !! x = None) →
  (∀ e, (1 ≤ e ≤ EPOCHS)%Z → save_due EPOCHS e = true →
        clock e = clock EPOCHS) →
  let st1 := first_run dumps train_epoch EPOCHS clock st in
  list_checkpoints (Some st1.2) = [checkpoint_name (clock EPOCHS)]
  ∧ restore loads (list_checkpoints (Some st1.2)) st1.2
    = Return (st1.1, EPOCHS).
Proof.
  intros HE Hfresh Hsame st1.
  pose proof (first_run_final_file dumps train_epoch EPOCHS clock st HE) as Hfile.
  fold st1 in Hfile.
  assert (Hl : list_checkpoints (Some st1.2) = [checkpoint_name (clock EPOCHS)]).
  { apply (Sorted_unique str_le).
    - apply Sorted_list_checkpoints.
    - repeat constructor.
    - apply NoDup_Permutation;
        [apply NoDup_list_checkpoints | apply NoDup_singleton |].
      intros x. rewrite elem_of_list_checkpoints, list_elem_of_singleton. split.
      + intros [Hlike Hsome].
        apply (proj1 (training_loop_keys dumps train_epoch EPOCHS clock
                        (range 1 (EPOCHS + 1)) st x))
          in Hsome as [Hold|(e & He & Hdue & ->)].
        * rewrite (Hfresh x Hlike) in Hold. by destruct Hold.
        * apply elem_of_range in He. rewrite (Hsame e) by (lia || done). done.
      + intros ->. split; [apply checkpoint_name_like | by rewrite Hfile]. }
  split; [done|].
  rewrite Hl. unfold restore, latest.
  change [checkpoint_name (clock EPOCHS)]
    with ([] ++ [checkpoint_name (clock EPOCHS)]).
  rewrite getitem_last.
  rewrite (restore_from_file dumps loads loads_dumps _ _ _ _ _ Hfile).
  by destruct st1.1.
Qed.

End SameSecond.

(** Four hundred epochs that take less than a second. *)
Lemma first_run_within_one_second_witness :
  let train (e : Z) (tr : trainer Z) :=
    {| network := (network tr + e)%Z; optimizer := (optimizer tr + 1)%Z |} in
  let clock (e : Z) := {| tm_year := 2021; tm_mon := 9; tm_mday := 19;
                          tm_hour := 17; tm_min := 24; tm_sec := 39 |} in
  let st : trainer Z * gmap string (list Z) :=
    ({| network := 0%Z; optimizer := 0%Z |}, ∅) in
  (∀ x, checkpoint_like x → st.2 !! x = None)
  ∧ list_checkpoints (Some (first_run toy_dumps train 400 clock st).2)
    = ["check_2021_Sep_19_17_24_39.pth"].
Proof.
  intros train clock st.
  assert (Hfresh : ∀ x, checkpoint_like x → st.2 !! x = None) by done.
  split; [done|].
  destruct (first_run_within_one_second toy_dumps toy_loads train 400 clock
              toy_loads_dumps st) as [H _]; [lia | done | done |].
  exact H.
Defined.

(** * The cell in a directory with sub-directories *)

Section DiskLoop.
Context {V : Type}.
Implicit Types (d : gmap string (Disk.entry V)) (files : list string).

Lemma is_file_lookup d x : Disk.is_file d x ↔ ∃ v, d !! x = Some (Disk.File v).
Proof.
  unfold Disk.is_file. destruct (d !! x) as [[v|]|]; split; try done.
  - intros _. by exists v.
  - by intros [? ?].
  - by intros [? ?].
Qed.

Lemma disk_remove_each_prefix files d :
  removed (Disk.remove_each files d) `prefix_of` files.
Proof.
  revert d. induction files as [|file rest IH]; intros d; simpl; [done|].
  unfold Disk.remove. destruct (d !! file) as [[v|]|]; simpl.
  - apply prefix_cons, IH.
  - apply prefix_nil.
  - apply prefix_nil.
Qed.

Lemma disk_remove_each_lookup files d x :
  storage (Disk.remove_each files d) !! x
  = if decide (x ∈ removed (Disk.remove_each files d)) then None else d !! x.
Proof.
  revert d. induction files as [|file rest IH]; intros d; cbn [Disk.remove_each].
  - cbn [storage removed]. case_decide; [set_solver | done].
  - unfold Disk.remove. destruct (d !! file) as [[v|]|] eqn:E; cbn [storage removed].
    + rewrite IH. destruct (decide (x = file)) as [->|Hne].
      * rewrite lookup_delete_eq. repeat case_decide; try done; set_solver.
      * rewrite lookup_delete_ne by done. repeat case_decide; try done; set_solver.
    + case_decide; [set_solver | done].
    + case_decide; [set_solver | done].
Qed.

Lemma disk_remove_each_nothing files d :
  removed (Disk.remove_each files d) = [] →
  storage (Disk.remove_each files d) = d.
Proof.
  intros E. apply map_eq. intros x. rewrite disk_remove_each_lookup, E.
  case_decide; [set_solver | done].
Qed.

(** Distinct names that are all files are all removed. *)
Lemma disk_remove_each_files files d :
  NoDup files → (∀ x, x ∈ files → Disk.is_file d x) →
  removed (Disk.remove_each files d) = files
  ∧ raised (Disk.remove_each files d) = None.
Proof.
  revert d. induction files as [|file rest IH]; intros d ND Hf; simpl; [done|].
  apply NoDup_cons in ND as [Hnin ND].
  destruct (proj1 (is_file_lookup d file)) as [v Hv]; [apply Hf; set_solver|].
  unfold Disk.remove. rewrite Hv. simpl.
  destruct (IH (delete file d) ND) as [-> ->]; [|done].
  intros x Hx. apply is_file_lookup.
  rewrite lookup_delete_ne by set_solver.
  apply is_file_lookup, Hf. set_solver.
Qed.

(** The loop stops at the first sub-directory. *)
Lemma disk_remove_each_directory before x after d :
  NoDup before → (∀ y, y ∈ before → Disk.is_file d y) →
  d !! x = Some Disk.Directory →
  removed (Disk.remove_each (before ++ x :: after) d) = before
  ∧ raised (Disk.remove_each (before ++ x :: after) d) = Some IsADirectoryError.
Proof.
  revert d. induction before as [|b before IH]; intros d ND Hf Hx; simpl.
  - unfold Disk.remove. by rewrite Hx.
  - apply NoDup_cons in ND as [Hnin ND].
    destruct (proj1 (is_file_lookup d b)) as [v Hv]; [apply Hf; set_solver|].
    unfold Disk.remove. rewrite Hv. simpl.
    destruct (IH (delete b d) ND) as [-> ->]; [| |done].
    + intros y Hy. apply is_file_lookup.
      rewrite lookup_delete_ne by set_solver.
      apply is_file_lookup, Hf. set_solver.
    + rewrite lookup_delete_ne; [done|]. intros ->. congruence.
Qed.

(** Names that exist are all files, or there is a first sub-directory. *)
Lemma first_directory files d :
  (∀ x, x ∈ files → is_Some (d !! x)) →
  (∀ x, x ∈ files → Disk.is_file d x)
  ∨ ∃ before x after,
      files = before ++ x :: after
      ∧ (∀ y, y ∈ before → Disk.is_file d y)
      ∧ d !! x = Some Disk.Directory.
Proof.
  induction files as [|file rest IH]; intros Hex.
  - left. intros x Hx. by apply elem_of_nil in Hx.
  - destruct (d !! file) as [[v|]|] eqn:E.
    + destruct IH as [Hall|(before & x & after & -> & Hb & Hx)].
      * intros x Hx. apply Hex. set_solver.
      * left. intros x [->|Hx]%elem_of_cons; [|by apply Hall].
        apply is_file_lookup. by exists v.
      * right. exists (file :: before), x, after. split; [done|]. split; [|done].
        intros y [->|Hy]%elem_of_cons; [|by apply Hb].
        apply is_file_lookup. by exists v.
    + right. exists [], file, rest. split; [done|]. split; [|done].
      intros y Hy. by apply elem_of_nil in Hy.
    + destruct (Hex file) as [? ?]; [set_solver | congruence].
Qed.

End DiskLoop.

Lemma slice_to_minus_three {A} (xs : list A) :
  slice_to xs (-3) = take (length xs - 3) xs.
Proof. apply (slice_to_keep xs 3). lia. Qed.

Section DiskCell.
Context {V : Type}.
Implicit Types (d : gmap string (Disk.entry V)).

(** How a run of the cell ends: normally, with every name of the slice
    removed, or at the first sub-directory of the slice. *)
Lemma disk_clean_up_cases d :
  let l := list_checkpoints (Some d) in
  let r := Disk.clean_up d in
  (raised r = None
   ∧ removed r = take (length l - 3) l
   ∧ ∀ x, x ∈ take (length l - 3) l → Disk.is_file d x)
  ∨ (∃ before x after,
       take (length l - 3) l = before ++ x :: after
       ∧ (∀ y, y ∈ before → Disk.is_file d y)
       ∧ d !! x = Some Disk.Directory
       ∧ removed r = before
       ∧ raised r = Some IsADirectoryError).
Proof.
  intros l r. unfold r, Disk.clean_up. cbv zeta. fold l.
  rewrite slice_to_minus_three.
  pose proof (NoDup_list_checkpoints (Some d)) as ND. fold l in ND.
  assert (NDs : NoDup (take (length l - 3) l)).
  { eapply sublist_NoDup; [exact ND | apply sublist_take]. }
  destruct (first_directory (take (length l - 3) l) d)
    as [Hall|(before & x & after & E & Hb & Hx)].
  - intros x Hx. apply (subseteq_take _ _ x) in Hx.
    by apply list_checkpoints_exist.
  - left. destruct (disk_remove_each_files _ d NDs Hall) as [-> ->]. done.
  - right. exists before, x, after. rewrite E in *.
    apply NoDup_app in NDs as (NDb & _ & _).
    destruct (disk_remove_each_directory before x after d NDb Hb Hx) as [-> ->].
    done.
Qed.

Lemma disk_clean_up_lookup d x :
  storage (Disk.clean_up d) !! x
  = if decide (x ∈ removed (Disk.clean_up d)) then None else d !! x.
Proof. apply disk_remove_each_lookup. Qed.

Lemma disk_clean_up_removed_take d :
  let l := list_checkpoints (Some d) in
  let p := length (removed (Disk.clean_up d)) in
  removed (Disk.clean_up d) = take p l ∧ p ≤ length l - 3.
Proof.
  intros l p.
  assert (P : removed (Disk.clean_up d) `prefix_of` take (length l - 3) l).
  { unfold Disk.clean_up. cbv zeta. fold l. rewrite <- slice_to_minus_three.
    apply disk_remove_each_prefix. }
  pose proof (prefix_length _ _ P) as Hlen. rewrite length_take in Hlen.
  split; [|unfold p; lia].
  destruct P as [rest E].
  assert (El : l = removed (Disk.clean_up d) ++ rest ++ drop (length l - 3) l).
  { rewrite app_assoc, <- E. by rewrite take_drop. }
  unfold p. rewrite El at 1. by rewrite take_app_length.
Qed.

(** What is listed after a run is the earlier listing without the names the
    run removed. *)
Lemma disk_listing_after d :
  list_checkpoints (Some (storage (Disk.clean_up d)))
  = drop (length (removed (Disk.clean_up d))) (list_checkpoints (Some d)).
Proof.
  set (l := list_checkpoints (Some d)).
  set (p := length (removed (Disk.clean_up d))).
  destruct (disk_clean_up_removed_take d) as [Hrem _]. fold l p in Hrem.
  pose proof (NoDup_list_checkpoints (Some d)) as ND. fold l in ND.
  pose proof (Sorted_list_checkpoints (Some d)) as S. fold l in S.
  apply (Sorted_unique str_le).
  - apply Sorted_list_checkpoints.
  - by apply Sorted_drop.
  - apply NoDup_Permutation.
    + apply NoDup_list_checkpoints.
    + eapply sublist_NoDup; [exact ND | apply sublist_drop].
    + intros x. rewrite elem_of_list_checkpoints, disk_clean_up_lookup, Hrem.
      rewrite <- (take_drop p l) in ND. apply NoDup_app in ND as (_ & Hdisj & _).
      split.
      * intros [Hlike Hsome]. case_decide as Hin; [by destruct Hsome|].
        assert (Hl : x ∈ l) by (by apply elem_of_list_checkpoints).
        rewrite <- (take_drop p l) in Hl. set_solver.
      * intros Hx.
        assert (Hl : x ∈ l) by (by apply (subseteq_drop p l x)).
        apply elem_of_list_checkpoints in Hl as [Hlike Hsome].
        split; [done|]. rewrite decide_False; [done|].
        intros Hin. by apply (Hdisj x).
Qed.

(** A second run removes nothing and ends the way the first did. *)
Lemma disk_second_run d :
  removed (Disk.clean_up (storage (Disk.clean_up d))) = []
  ∧ raised (Disk.clean_up (storage (Disk.clean_up d)))
    = raised (Disk.clean_up d).
Proof.
  set (l := list_checkpoints (Some d)).
  set (r := Disk.clean_up d).
  pose proof (disk_listing_after d) as Hafter. fold l r in Hafter.
  pose proof (NoDup_list_checkpoints (Some d)) as ND. fold l in ND.
  unfold Disk.clean_up. cbv zeta.
  rewrite Hafter, slice_to_minus_three, length_drop.
  destruct (disk_clean_up_cases d)
    as [(Hraised & Hrem & _)|(before & x & after & E & Hb & Hx & Hrem & Hraised)];
    fold l r in Hrem, Hraised.
  - rewrite Hraised, Hrem, length_take.
    replace (length l - (length l - 3) `min` length l - 3) with 0 by lia.
    by rewrite take_0.
  - fold l in E.
    assert (Hlen : length before + 1 + length after = length l - 3).
    { apply (f_equal length) in E.
      rewrite length_take, length_app in E. cbn [length] in E. lia. }
    rewrite Hraised, Hrem, take_drop_commute.
    replace (length before + (length l - length before - 3)) with (length l - 3)
      by lia.
    rewrite E, drop_app_length.
    assert (Hxd : storage r !! x = Some Disk.Directory).
    { unfold r. rewrite disk_clean_up_lookup. fold r. rewrite Hrem.
      rewrite decide_False; [done|].
      assert (NDs : NoDup (take (length l - 3) l)).
      { eapply sublist_NoDup; [exact ND | apply sublist_take]. }
      rewrite E in NDs. apply NoDup_app in NDs as (_ & Hdisj & _).
      intros Hin. apply (Hdisj x Hin). set_solver. }
    cbn [Disk.remove_each]. unfold Disk.remove. by rewrite Hxd.
Qed.

End DiskCell.

(** On a directory of files only, the cell with sub-directories is the cell
    on the map of file contents. *)
Lemma disk_remove_each_fmap {V} (files : list string) (dir : gmap string V) :
  Disk.remove_each files (Disk.File <$> dir)
  = {| storage := Disk.File <$> storage (remove_each files dir);
       removed := removed (remove_each files dir);
       raised := raised (remove_each files dir) |}.
Proof.
  revert dir. induction files as [|file rest IH]; intros dir; [done|].
  cbn [Disk.remove_each remove_each]. unfold Disk.remove, Os.remove.
  rewrite lookup_fmap. destruct (dir !! file) as [v|]; [|done].
  cbn [fmap option_fmap option_map]. by rewrite <- fmap_delete, IH.
Qed.

Lemma list_checkpoints_fmap {V W} (f : V → W) (dir : gmap string V) :
  list_checkpoints (Some (f <$> dir)) = list_checkpoints (Some dir).
Proof.
  unfold list_checkpoints, glob, scandir.
  rewrite map_to_list_fmap, <- list_fmap_compose.
  reflexivity.
Qed.

Lemma disk_clean_up_files_only {V} (dir : gmap string V) :
  Disk.clean_up (Disk.File <$> dir)
  = {| storage := Disk.File <$> storage (clean_up dir);
       removed := removed (clean_up dir);
       raised := raised (clean_up dir) |}.
Proof.
  unfold Disk.clean_up, clean_up, clean_up_keeping, prune. cbv zeta.
  rewrite list_checkpoints_fmap. apply disk_remove_each_fmap.
Qed.

(** * How many the cell removes *)

(** C1, as amended.  The cell has its retention count written into it: three.
    On every directory whose listed names are regular files it ends normally
    and removes exactly [max(0, n - 3)] of the [n] listed names, namely the
    [n - 3] smallest: none of them is above a name that stays, and they are
    what the directory loses.  With three names or fewer it removes nothing
    and leaves the directory as it is. *)
Theorem cell_removes_oldest {V} (d : gmap string (Disk.entry V)) :
  (∀ x, x ∈ list_checkpoints (Some d) → Disk.is_file d x) →
  let l := list_checkpoints (Some d) in
  let r := Disk.clean_up d in
  raised r = None
  ∧ Z.of_nat (length (removed r)) = Z.max 0 (Z.of_nat (length l) - 3)
  ∧ removed r = take (length l - 3) l
  ∧ (∀ x y, x ∈ removed r → y ∈ drop (length l - 3) l → str_le x y)
  ∧ (∀ x, storage r !! x = if decide (x ∈ removed r) then None else d !! x)
  ∧ (length l ≤ 3 → removed r = [] ∧ storage r = d).
Proof.
  intros Hfiles l r.
  assert (Hrem : removed r = take (length l - 3) l ∧ raised r = None).
  { unfold r, Disk.clean_up. cbv zeta. fold l. rewrite slice_to_minus_three.
    apply disk_remove_each_files.
    - eapply sublist_NoDup; [apply (NoDup_list_checkpoints (Some d)) | apply sublist_take].
    - intros x Hx. apply Hfiles. by apply (subseteq_take _ _ x) in Hx. }
  destruct Hrem as [Hrem Hraised].
  split; [done|]. split; [rewrite Hrem, length_take; lia|]. split; [done|].
  split; [|split].
  - intros x y Hx Hy. rewrite Hrem in Hx.
    eapply Sorted_take_drop_le; [apply (Sorted_list_checkpoints (Some d)) | done..].
  - intros x. apply disk_clean_up_lookup.
  - intros Hn.
    assert (E : removed r = []).
    { rewrite Hrem. replace (length l - 3) with 0 by lia. apply take_0. }
    split; [done | by apply disk_remove_each_nothing].
Qed.

(** Five checkpoints, a model file and a sub-directory for logs. *)
Lemma cell_removes_oldest_witness :
  let d : gmap string (Disk.entry nat) :=
    list_to_map [("check_0004.pth", Disk.File 4); ("check_0001.pth", Disk.File 1);
                 ("model.pth", Disk.File 0); ("runs", Disk.Directory);
                 ("check_0005.pth", Disk.File 5); ("check_0002.pth", Disk.File 2);
                 ("check_0003.pth", Disk.File 3)] in
  (∀ x, x ∈ list_checkpoints (Some d) → Disk.is_file d x)
  ∧ removed (Disk.clean_up d) = ["check_0001.pth"; "check_0002.pth"]
  ∧ list_checkpoints (Some (storage (Disk.clean_up d)))
    = ["check_0003.pth"; "check_0004.pth"; "check_0005.pth"].
Proof.
  intros d.
  assert (Hfiles : ∀ x, x ∈ list_checkpoints (Some d) → Disk.is_file d x).
  { apply Forall_forall. by_computation. }
  split; [done|].
  destruct (cell_removes_oldest d Hfiles) as (_ & _ & H & _).
  split; [rewrite H; vm_compute; reflexivity | vm_compute; reflexivity].
Defined.

(** C1 as stated fails on the cell: whatever count is meant, the cell keeps
    three.  With two checkpoints it removes nothing, where a count of one
    asks for one removal and a count of zero for two. *)
Lemma cell_keeps_three_whatever_count :
  let d : gmap string (Disk.entry nat) :=
    list_to_map [("check_0001.pth", Disk.File 1); ("check_0002.pth", Disk.File 2)] in
  let l := list_checkpoints (Some d) in
  l = ["check_0001.pth"; "check_0002.pth"]
  ∧ (∀ x, x ∈ l → Disk.is_file d x)
  ∧ raised (Disk.clean_up d) = None
  ∧ removed (Disk.clean_up d) = []
  ∧ ¬ (∀ keep_count : Z, (0 ≤ keep_count)%Z →
         Z.of_nat (length (removed (Disk.clean_up d)))
         = Z.max 0 (Z.of_nat (length l) - keep_count)).
Proof.
  intros d l.
  assert (El : l = ["check_0001.pth"; "check_0002.pth"]) by (vm_compute; reflexivity).
  assert (Er : removed (Disk.clean_up d) = []) by (vm_compute; reflexivity).
  split; [done|].
  split; [apply Forall_forall; by_computation|].
  split; [vm_compute; reflexivity|].
  split; [done|].
  intros H. specialize (H 1%Z ltac:(lia)). rewrite Er, El in H.
  vm_compute in H. discriminate.
Qed.

(** * Running the cell again *)

(** C5, as amended.  The cell, with its count of three, is idempotent on
    every directory: run again on what a first run left, it removes nothing
    more, leaves the directory as it is and ends the way the first run did.
    When the listed names are regular files the first run ends normally and
    what is listed after it are the last three names listed before it, all
    of them when there were fewer. *)
Theorem cell_idempotent {V} (d : gmap string (Disk.entry V)) :
  let l := list_checkpoints (Some d) in
  let once := Disk.clean_up d in
  let again := Disk.clean_up (storage once) in
  removed again = []
  ∧ storage again = storage once
  ∧ raised again = raised once
  ∧ ((∀ x, x ∈ l → Disk.is_file d x) →
     raised once = None
     ∧ list_checkpoints (Some (storage once)) = drop (length l - 3) l
     ∧ length (list_checkpoints (Some (storage once))) = Nat.min (length l) 3).
Proof.
  intros l once again.
  destruct (disk_second_run d) as [Hrem2 Hraised2]. fold once again in Hrem2, Hraised2.
  split; [done|]. split; [by apply disk_remove_each_nothing|]. split; [done|].
  intros Hfiles.
  pose proof (disk_listing_after d) as Hafter. fold l once in Hafter.
  destruct (disk_clean_up_cases d)
    as [(Hraised & Hrem & _)|(before & x & after & E & _ & Hx & _)].
  - fold l once in Hraised, Hrem.
    split; [done|]. rewrite Hafter, Hrem, length_take.
    replace ((length l - 3) `min` length l) with (length l - 3) by lia.
    split; [done|]. rewrite length_drop. lia.
  - fold l in E.
    assert (Hin : x ∈ l).
    { apply (subseteq_take (length l - 3) l x). rewrite E. set_solver. }
    apply Hfiles, is_file_lookup in Hin as [v Hv]. congruence.
Qed.

Lemma cell_idempotent_witness :
  let d : gmap string (Disk.entry nat) :=
    list_to_map [("check_0004.pth", Disk.File 4); ("check_0001.pth", Disk.File 1);
                 ("model.pth", Disk.File 0); ("runs", Disk.Directory);
                 ("check_0005.pth", Disk.File 5); ("check_0002.pth", Disk.File 2);
                 ("check_0003.pth", Disk.File 3)] in
  (∀ x, x ∈ list_checkpoints (Some d) → Disk.is_file d x)
  ∧ list_checkpoints (Some (storage (Disk.clean_up d)))
    = ["check_0003.pth"; "check_0004.pth"; "check_0005.pth"]
  ∧ removed (Disk.clean_up (storage (Disk.clean_up d))) = [].
Proof.
  intros d.
  assert (Hfiles : ∀ x, x ∈ list_checkpoints (Some d) → Disk.is_file d x).
  { apply Forall_forall. by_computation. }
  split; [done|].
  destruct (cell_idempotent d) as (H1 & _ & _ & H2).
  destruct (H2 Hfiles) as (_ & H3 & _).
  split; [rewrite H3; vm_compute; reflexivity | exact H1].
Defined.

(** C5 as stated fails on the cell: what survives is the last three names,
    not the last [keep_count] for whatever count is meant.  With two
    checkpoints both survive, where a count of one leaves one. *)
Lemma cell_survivors_are_three :
  let d : gmap string (Disk.entry nat) :=
    list_to_map [("check_0001.pth", Disk.File 1); ("check_0002.pth", Disk.File 2)] in
  let l := list_checkpoints (Some d) in
  (∀ x, x ∈ l → Disk.is_file d x)
  ∧ list_checkpoints (Some (storage (Disk.clean_up d)))
    = ["check_0001.pth"; "check_0002.pth"]
  ∧ ¬ (∀ keep_count : Z, (0 ≤ keep_count)%Z →
         list_checkpoints (Some (storage (Disk.clean_up d)))
         = drop (length l - Z.to_nat keep_count) l).
Proof.
  intros d l.
  assert (E : list_checkpoints (Some (storage (Disk.clean_up d)))
              = ["check_0001.pth"; "check_0002.pth"]) by (vm_compute; reflexivity).
  split; [apply Forall_forall; by_computation|].
  split; [done|].
  intros H. specialize (H 1%Z ltac:(lia)). rewrite E in H.
  vm_compute in H. discriminate.
Qed.

(** * When the cell fails *)




(** * What the cell never deletes *)

(** X6.  On every directory the cell leaves the last three listed names as
    they are, so at least [min(n, 3)] of the [n] listed names are still
    listed after it; when the listed names are regular files exactly
    [min(n, 3)] are. *)
Theorem cell_keeps_last_three {V} (d : gmap string (Disk.entry V)) :
  let l := list_checkpoints (Some d) in
  let r := Disk.clean_up d in
  (∀ y, y ∈ drop (length l - 3) l → storage r !! y = d !! y)
  ∧ Nat.min (length l) 3 ≤ length (list_checkpoints (Some (storage r)))
  ∧ ((∀ x, x ∈ l → Disk.is_file d x) →
     length (list_checkpoints (Some (storage r))) = Nat.min (length l) 3).
Proof.
  intros l r.
  destruct (disk_clean_up_removed_take d) as [Hrem Hp]. fold l r in Hrem, Hp.
  pose proof (disk_listing_after d) as Hafter. fold l r in Hafter.
  pose proof (NoDup_list_checkpoints (Some d)) as ND. fold l in ND.
  split; [|split].
  - intros y Hy. unfold r. rewrite disk_clean_up_lookup. fold r.
    rewrite decide_False; [done|]. rewrite Hrem. intros Hin.
    rewrite <- (take_drop (length l - 3) l) in ND.
    apply NoDup_app in ND as (_ & Hdisj & _).
    apply (Hdisj y); [|done].
    rewrite <- (Nat.min_l _ _ Hp), <- take_take in Hin.
    by apply (subseteq_take _ _ y) in Hin.
  - rewrite Hafter, length_drop. lia.
  - intros Hfiles. rewrite Hafter, length_drop.
    destruct (disk_clean_up_cases d)
      as [(_ & Hr & _)|(before & x & after & E & _ & Hx & _)].
    + fold l r in Hr. rewrite Hr, length_take. lia.
    + fold l in E.
      assert (Hin : x ∈ l).
      { apply (subseteq_take (length l - 3) l x). rewrite E. set_solver. }
      apply Hfiles, is_file_lookup in Hin as [v Hv]. congruence.
Qed.

Lemma cell_keeps_last_three_witness :
  let d : gmap string (Disk.entry nat) :=
    list_to_map [("check_0001.pth", Disk.File 1); ("check_0002.pth", Disk.Directory);
                 ("check_0003.pth", Disk.File 3); ("check_0004.pth", Disk.File 4);
                 ("check_0005.pth", Disk.File 5)] in
  "check_0005.pth" ∈ drop (length (list_checkpoints (Some d)) - 3)
                          (list_checkpoints (Some d))
  ∧ storage (Disk.clean_up d) !! "check_0005.pth" = Some (Disk.File 5).
Proof.
  intros d.
  assert (Hin : "check_0005.pth"
                ∈ drop (length (list_checkpoints (Some d)) - 3)
                       (list_checkpoints (Some d))).
  { vm_compute. set_solver. }
  split; [done|].
  destruct (cell_keeps_last_three d) as (H & _ & _).
  rewrite (H _ Hin). reflexivity.
Defined.
